(** * Authorization material of a Stacks transaction

    A shallow embedding of [src/authorization.ts] and [src/signer.ts]:
    signature values, the sighash chain, spending conditions, authorizations,
    their wire encoding, and the signing session.

    JavaScript values are modelled as the code uses them: hex text as
    [string], a [Buffer] as a list of bytes, a [BigInt] as [Z], a field that
    may be [undefined] as an [option], a [throw] as the [Err] case of a
    result. *)

From Stdlib Require Import Strings.String Strings.Ascii Strings.Byte.
From Stdlib Require Import ZArith NArith List Lia Bool.
Import ListNotations.

Local Open Scope string_scope.

(** ** Thrown errors *)

(** The source throws plain [Error] objects told apart by their message; the
    names are those of the error taxonomy.
    - ['Invalid signature hash length']         is [EncodingLengthError]
    - ['Invalid signature']                     is [InvalidSignatureLength]
    - ["Cannot sign origin after sponsor key"]  is [OverlapError]
    - ['Origin would have too many signatures'] is [OversignError]
    [UnknownAddressHashMode], [NotReadyError] and [Unimplemented] belong to
    the taxonomy; no [throw] of the two source files raises them.
    [TypeError], [SyntaxError] and [RangeError] are raised by the JavaScript
    runtime (use of [undefined], a malformed [BigInt] literal, a read past
    the end of a buffer). *)
Inductive error : Type :=
| EncodingLengthError
| InvalidSignatureLength
| OverlapError
| OversignError
| UnknownAddressHashMode
| NotReadyError
| Unimplemented
| TypeError
| SyntaxError
| RangeError.

Inductive result (A : Type) : Type :=
| Ok (a : A)
| Err (e : error).
Arguments Ok {A} a.
Arguments Err {A} e.

Definition bind {A B : Type} (r : result A) (k : A -> result B) : result B :=
  match r with
  | Ok a => k a
  | Err e => Err e
  end.

Notation "x <- r ;; k" := (bind r (fun x => k))
  (at level 61, r at next level, right associativity).
Notation "' p <- r ;; k" := (bind r (fun x => let p := x in k))
  (at level 61, p pattern, r at next level, right associativity).

(** Reading a field that is [undefined] where a value is needed (a property
    access on it, [Buffer.from(undefined, 'hex')], a [BigInt] method) throws
    [TypeError]. *)
Definition defined {A : Type} (o : option A) : result A :=
  match o with
  | Some a => Ok a
  | None => Err TypeError
  end.

(** String concatenation [s + x] turns an [undefined] operand into the text
    ["undefined"]. *)
Definition String_of (o : option string) : string :=
  match o with
  | Some s => s
  | None => "undefined"
  end.

(** A non-empty string is truthy; the empty string and [undefined] are
    falsy. *)
Definition truthy (o : option string) : bool :=
  match o with
  | Some EmptyString => false
  | Some _ => true
  | None => false
  end.

Definition option_string_eqb (a b : option string) : bool :=
  match a, b with
  | Some x, Some y => String.eqb x y
  | None, None => true
  | _, _ => false
  end.

(** ** Buffers and hex text *)

Definition Buffer : Type := list byte.

Definition hex_char (n : N) : ascii :=
  match n with
  | 0 => "0" | 1 => "1" | 2 => "2" | 3 => "3"
  | 4 => "4" | 5 => "5" | 6 => "6" | 7 => "7"
  | 8 => "8" | 9 => "9" | 10 => "a" | 11 => "b"
  | 12 => "c" | 13 => "d" | 14 => "e" | _ => "f"
  end%N%char.

(** Value of a hex digit; both letter cases are accepted when decoding. *)
Definition hex_val (c : ascii) : option N :=
  let n := N_of_ascii c in
  if ((48 <=? n) && (n <=? 57))%N then Some (n - 48)%N
  else if ((97 <=? n) && (n <=? 102))%N then Some (n - 87)%N
  else if ((65 <=? n) && (n <=? 70))%N then Some (n - 55)%N
  else None.

Definition byte_of_N (n : N) : byte :=
  match Byte.of_N n with
  | Some b => b
  | None => x00
  end.

(** [buf.toString('hex')]: two lower-case digits per byte. *)
Fixpoint Buffer_toString_hex (buf : Buffer) : string :=
  match buf with
  | [] => ""
  | b :: rest =>
      String (hex_char (Byte.to_N b / 16))
        (String (hex_char (Byte.to_N b mod 16)) (Buffer_toString_hex rest))
  end.

(** [Buffer.from(s, 'hex')]: decodes pairs of hex digits and stops at the
    first pair that is not two hex digits; a trailing single character is
    dropped. *)
Fixpoint Buffer_from_hex (s : string) : Buffer :=
  match s with
  | String c1 (String c2 rest) =>
      match hex_val c1, hex_val c2 with
      | Some hi, Some lo => byte_of_N (16 * hi + lo) :: Buffer_from_hex rest
      | _, _ => []
      end
  | _ => []
  end.

Definition byteLength (buf : Buffer) : nat := List.length buf.

(** [Buffer.alloc(n, 0x00)]. *)
Definition Buffer_alloc (n : nat) : Buffer := repeat x00 n.

(** Hex text that survives a decode/encode cycle unchanged: an even number
    of lower-case hex digits. *)
Definition canonical_hex (s : string) : Prop :=
  Buffer_toString_hex (Buffer_from_hex s) = s.

(** ** BigInt helpers *)

(** [n.toString(16)] for a non-negative [n]: the hex digits without leading
    zeros, ["0"] for zero. *)
Fixpoint hex_digits (fuel : nat) (n : N) (acc : string) : string :=
  match fuel with
  | O => acc
  | S fuel' =>
      let acc' := String (hex_char (n mod 16)) acc in
      if (n / 16 =? 0)%N then acc' else hex_digits fuel' (n / 16) acc'
  end.

Definition N_toString16 (n : N) : string :=
  hex_digits (S (N.to_nat (N.log2 n))) n "".

(** [BigInt.prototype.toString(16)]: a minus sign before the digits of a
    negative number. *)
Definition BigInt_toString16 (i : Z) : string :=
  if (i <? 0)%Z then String "-" (N_toString16 (Z.abs_N i))
  else N_toString16 (Z.to_N i).

Fixpoint zeros (n : nat) : string :=
  match n with
  | O => ""
  | S n' => String "0" (zeros n')
  end.

(** [s.padStart(target, '0')]: never shortens [s]. *)
Definition padStart (target : nat) (s : string) : string :=
  zeros (target - String.length s) ++ s.

(** Modelled from the spec: [utils.ts] is not part of the sources at hand.
    The spec writes the integers "as big-endian unsigned 64-bit (8B)" and has
    the length guard of the sighash functions protect "against any upstream
    value that cannot fit the fixed width": the helper pads the hex digits on
    the left up to [2 * lengthBytes] characters and does not cut a value that
    is too wide.  [lengthBytes] defaults to 8. *)
Definition bigIntToHexString (integer : Z) (lengthBytes : nat) : string :=
  padStart (2 * lengthBytes) (BigInt_toString16 integer).

Fixpoint hex_value (s : string) (acc : N) : option N :=
  match s with
  | EmptyString => Some acc
  | String c rest =>
      match hex_val c with
      | Some d => hex_value rest (16 * acc + d)
      | None => None
      end
  end.

(** Modelled from the spec: [utils.ts] is not part of the sources at hand.
    The inverse of [bigIntToHexString], [BigInt("0x" + hex)]: the number
    written by the hex digits; text that is empty or holds another character
    is a [SyntaxError]. *)
Definition hexStringToBigInt (hex : string) : result Z :=
  match hex with
  | EmptyString => Err SyntaxError
  | _ =>
      match hex_value hex 0 with
      | Some n => Ok (Z.of_N n)
      | None => Err SyntaxError
      end
  end.

(** Big-endian bytes of [n], [k] of them (the low [8 * k] bits). *)
Fixpoint be_bytes_acc (k : nat) (n : N) (acc : Buffer) : Buffer :=
  match k with
  | O => acc
  | S k' => be_bytes_acc k' (n / 256) (byte_of_N (n mod 256) :: acc)
  end.

Definition be_bytes (k : nat) (n : N) : Buffer := be_bytes_acc k n [].

Definition u64_be (i : Z) : Buffer := be_bytes 8 (Z.to_N i).

(** The [k] low hex digits of [n], most significant first, before [acc]. *)
Fixpoint fixed_hex (k : nat) (n : N) (acc : string) : string :=
  match k with
  | O => acc
  | S k' => fixed_hex k' (n / 16) (String (hex_char (n mod 16)) acc)
  end.


(** ** Constants *)

(** [constants.ts] is not part of the sources at hand.  The code passes the
    members of [AuthType], [AddressHashMode] and [PubKeyEncoding] to
    [appendHexString], concatenates them into hex text and compares them with
    [read(1).toString('hex')]: they are string enums whose values are the hex
    text of one byte.  The values themselves are parameters. *)
Class Constants : Type := {
  AuthType_Standard : string;
  AuthType_Sponsored : string;
  AddressHashMode_SerializeP2PKH : string;
  AddressHashMode_SerializeP2SH : string;
  AddressHashMode_SerializeP2WPKH : string;
  AddressHashMode_SerializeP2WSH : string;
  PubKeyEncoding_Compressed : string;
  PubKeyEncoding_Uncompressed : string
}.

(** Modelled from the spec: [constants.ts] is not part of the sources at
    hand; a signature value is "exactly 65 bytes (1-byte recovery id +
    64-byte r/s)". *)
Definition RECOVERABLE_ECDSA_SIG_LENGTH_BYTES : nat := 65.

Definition one_byte_hex (s : string) : bool :=
  String.eqb (Buffer_toString_hex (Buffer_from_hex s)) s
  && (byteLength (Buffer_from_hex s) =? 1)%nat.

Fixpoint distinct (l : list string) : bool :=
  match l with
  | [] => true
  | x :: rest => negb (existsb (String.eqb x) rest) && distinct rest
  end.

(** What the code relies on: every enum member is the hex text of one byte,
    and the members of one enum differ from each other. *)
Definition Constants_ok (K : Constants) : bool :=
  forallb one_byte_hex
    [AuthType_Standard; AuthType_Sponsored;
     AddressHashMode_SerializeP2PKH; AddressHashMode_SerializeP2SH;
     AddressHashMode_SerializeP2WPKH; AddressHashMode_SerializeP2WSH;
     PubKeyEncoding_Compressed; PubKeyEncoding_Uncompressed]
  && distinct [AuthType_Standard; AuthType_Sponsored]
  && distinct [AddressHashMode_SerializeP2PKH; AddressHashMode_SerializeP2SH;
               AddressHashMode_SerializeP2WPKH; AddressHashMode_SerializeP2WSH]
  && distinct [PubKeyEncoding_Compressed; PubKeyEncoding_Uncompressed].

(** ** Buffer helpers of [utils.ts] *)

(** Modelled from the spec: [utils.ts] is not part of the sources at hand.
    A [BufferArray] collects buffers in order; [appendHexString] adds the
    bytes written by a hex string, [concatBuffer] joins the parts into the
    "fixed-width binary layout". *)
Module BufferArray.
Definition t : Type := list Buffer.
Definition new : t := [].
Definition appendHexString (hexString : string) (a : t) : t :=
  (a ++ [Buffer_from_hex hexString])%list.
Definition push (b : Buffer) (a : t) : t := (a ++ [b])%list.
Definition concatBuffer (a : t) : Buffer := List.concat a.
End BufferArray.

(** Modelled from the spec: [utils.ts] is not part of the sources at hand.
    A [BufferReader] is a buffer and a read position; [read n] returns the
    next [n] bytes and moves the position past them.  The spec calls the
    reads "strict fixed-width": a read that would run past the end of the
    buffer is an error here. *)
Module BufferReader.
Record t : Type := mk { buffer : Buffer; index : nat }.
Definition new (buffer : Buffer) : t := mk buffer 0.
Definition read (bytes : nat) (r : t) : result (Buffer * t) :=
  if (index r + bytes <=? List.length (buffer r))%nat
  then Ok (firstn bytes (skipn (index r) (buffer r)),
           mk (buffer r) (index r + bytes))
  else Err RangeError.
End BufferReader.

(** ** Signature value *)

Module MessageSignature.
Record t : Type := mk { signature : option string }.

(** [constructor(signature?: string)]. *)
Definition new (signature : option string) : result t :=
  if truthy signature then
    let length := byteLength (Buffer_from_hex (String_of signature)) in
    if negb (length =? RECOVERABLE_ECDSA_SIG_LENGTH_BYTES)%nat
    then Err InvalidSignatureLength
    else Ok (mk signature)
  else Ok (mk signature).

(** [static empty()]: [new this()] has no argument, so the constructor
    checks nothing and cannot throw; the field is then overwritten with the
    hex text of 65 zero bytes. *)
Definition empty : t :=
  mk (Some (Buffer_toString_hex
              (Buffer_alloc RECOVERABLE_ECDSA_SIG_LENGTH_BYTES))).

Definition toString (m : t) : option string := signature m.

Definition serialize (m : t) : result Buffer :=
  s <- defined (signature m) ;;
  let bufferArray := BufferArray.appendHexString s BufferArray.new in
  Ok (BufferArray.concatBuffer bufferArray).

Definition deserialize (this : t) (bufferReader : BufferReader.t)
  : result (t * BufferReader.t) :=
  '(b, r) <- BufferReader.read RECOVERABLE_ECDSA_SIG_LENGTH_BYTES bufferReader ;;
  Ok (mk (Some (Buffer_toString_hex b)), r).

(** Modelled from the spec: [message.ts] is not part of the sources at
    hand.  [MessageSignature.deserialize(reader)], called on the class,
    is the "inverse read" that makes a fresh object with [new this()] and
    fills it with the instance method. *)
Definition deserialize_static (bufferReader : BufferReader.t)
  : result (t * BufferReader.t) :=
  this <- new None ;;
  deserialize this bufferReader.
End MessageSignature.

(** ** Addresses and keys *)

(** Modelled from the spec: [types.ts] is not part of the sources at hand.
    An address is a version and the hex text of the "20-byte hash" of the
    public key(s); [Address.fromData] stores both as given. *)
Module Address.
Record t : Type := mk { version : Z; data : string }.
Definition fromData (version : Z) (data : string) : t := mk version data.
End Address.

(** The collaborators the spec leaves outside: keys and the signing
    primitive ([keys.ts]), address derivation ([types.ts]), and the hash
    primitive ([vendor/js-sha512]), which the code calls on hex text and
    which returns hex text. *)
Class Collaborators : Type := {
  StacksPrivateKey : Type;
  StacksPublicKey : Type;
  StacksPublicKey_new : string -> StacksPublicKey;
  compressed : StacksPublicKey -> bool;
  sign : StacksPrivateKey -> string -> MessageSignature.t;
  getPublicKey : StacksPrivateKey -> StacksPublicKey;
  Address_fromPublicKeys :
    Z -> string -> Z -> list StacksPublicKey -> Address.t;
  sha512_256 : string -> string
}.

(** ** Spending conditions *)

(** The class an object was made by; it selects the [numSignatures] method
    and decides whether the constructor set [signaturesRequired]. *)
Inductive SpendingConditionClass : Type :=
| BaseCondition
| SingleSig
| MultiSig.

Module SpendingCondition.
Record t : Type := mk {
  class : SpendingConditionClass;
  addressHashMode : option string;
  signerAddress : option Address.t;
  nonce : option Z;
  feeRate : option Z;
  pubKeyEncoding : option string;
  signature : MessageSignature.t;
  signaturesRequired : option Z
}.

Definition with_signature (sig : MessageSignature.t) (c : t) : t :=
  mk (class c) (addressHashMode c) (signerAddress c) (nonce c) (feeRate c)
     (pubKeyEncoding c) sig (signaturesRequired c).

Section Methods.
Context {K : Constants} {X : Collaborators}.

(** [constructor(addressHashMode?, pubKey?, nonce?, feeRate?)] of the
    base class: [signaturesRequired] is not assigned. *)
Definition new (addressHashMode pubKey : option string)
    (nonce feeRate : option Z) : t :=
  {| class := BaseCondition;
     addressHashMode := addressHashMode;
     signerAddress :=
       match addressHashMode, pubKey with
       | Some m, Some pk =>
           if truthy addressHashMode && truthy pubKey
           then Some (Address_fromPublicKeys 0 m 1 [StacksPublicKey_new pk])
           else None
       | _, _ => None
       end;
     nonce := nonce;
     feeRate := feeRate;
     pubKeyEncoding :=
       match pubKey with
       | Some pk =>
           if truthy pubKey
           then Some (if compressed (StacksPublicKey_new pk)
                      then PubKeyEncoding_Compressed
                      else PubKeyEncoding_Uncompressed)
           else None
       | None => None
       end;
     signature := MessageSignature.empty;
     signaturesRequired := None |}.

Definition is_single_key_mode (m : option string) : bool :=
  option_string_eqb m (Some AddressHashMode_SerializeP2PKH)
  || option_string_eqb m (Some AddressHashMode_SerializeP2WPKH).

Definition is_threshold_mode (m : option string) : bool :=
  option_string_eqb m (Some AddressHashMode_SerializeP2SH)
  || option_string_eqb m (Some AddressHashMode_SerializeP2WSH).

Definition singleSig (c : t) : bool :=
  if is_single_key_mode (addressHashMode c) then true else false.

(** The text that is hashed before signing. *)
Definition preSignMaterial (curSigHash authType : string)
    (feeRate nonce : Z) : string :=
  curSigHash ++ authType
    ++ bigIntToHexString feeRate 8 ++ bigIntToHexString nonce 8.

Definition makeSigHashPreSign (curSigHash authType : string)
    (feeRate nonce : Z) : result string :=
  let hashLength := (32 + 1 + 8 + 8)%nat in
  let sigHash := preSignMaterial curSigHash authType feeRate nonce in
  if (hashLength <? byteLength (Buffer_from_hex sigHash))%nat
  then Err EncodingLengthError
  else Ok (sha512_256 sigHash).

Definition makeSigHashPostSign (curSigHash : string)
    (publicKey : StacksPublicKey) (signature : MessageSignature.t)
  : result string :=
  let hashLength := (32 + 1 + RECOVERABLE_ECDSA_SIG_LENGTH_BYTES)%nat in
  let pubKeyEncoding :=
    if compressed publicKey
    then PubKeyEncoding_Compressed else PubKeyEncoding_Uncompressed in
  let sigHash :=
    curSigHash ++ pubKeyEncoding
      ++ String_of (MessageSignature.toString signature) in
  if (hashLength <? byteLength (Buffer_from_hex sigHash))%nat
  then Err EncodingLengthError
  else Ok (sha512_256 sigHash).

Definition nextSignature (curSigHash authType : string)
    (feeRate nonce : Z) (privateKey : StacksPrivateKey)
  : result (MessageSignature.t * string) :=
  sigHashPreSign <- makeSigHashPreSign curSigHash authType feeRate nonce ;;
  let signature := sign privateKey sigHashPreSign in
  let publicKey := getPublicKey privateKey in
  nextSigHash <- makeSigHashPostSign sigHashPreSign publicKey signature ;;
  Ok (signature, nextSigHash).

(** [numSignatures()] of [SingleSigSpendingCondition]. *)
Definition SingleSig_numSignatures (c : t) : Z :=
  if option_string_eqb (MessageSignature.toString (signature c))
       (MessageSignature.toString MessageSignature.empty)
  then 0%Z else 1%Z.

(** [numSignatures()]: the base class returns 0,
    [SingleSigSpendingCondition] overrides it, and
    [MultiSigSpendingCondition] has an empty body and inherits. *)
Definition numSignatures (c : t) : Z :=
  match class c with
  | SingleSig => SingleSig_numSignatures c
  | BaseCondition | MultiSig => 0%Z
  end.

Definition serialize (c : t) : result Buffer :=
  let bufferArray := BufferArray.new in
  m <- defined (addressHashMode c) ;;
  let bufferArray := BufferArray.appendHexString m bufferArray in
  a <- defined (signerAddress c) ;;
  let bufferArray := BufferArray.appendHexString (Address.data a) bufferArray in
  n <- defined (nonce c) ;;
  let bufferArray :=
    BufferArray.appendHexString (bigIntToHexString n 8) bufferArray in
  f <- defined (feeRate c) ;;
  let bufferArray :=
    BufferArray.appendHexString (bigIntToHexString f 8) bufferArray in
  if is_single_key_mode (addressHashMode c) then
    e <- defined (pubKeyEncoding c) ;;
    let bufferArray := BufferArray.appendHexString e bufferArray in
    s <- MessageSignature.serialize (signature c) ;;
    let bufferArray := BufferArray.push s bufferArray in
    Ok (BufferArray.concatBuffer bufferArray)
  else if is_threshold_mode (addressHashMode c) then
    (* TODO *)
    Ok (BufferArray.concatBuffer bufferArray)
  else
    Ok (BufferArray.concatBuffer bufferArray).

Definition deserialize (this : t) (bufferReader : BufferReader.t)
  : result (t * BufferReader.t) :=
  '(b, r) <- BufferReader.read 1 bufferReader ;;
  let mode := Some (Buffer_toString_hex b) in
  '(b, r) <- BufferReader.read 20 r ;;
  let signerPubKeyHash := Buffer_toString_hex b in
  let address := Some (Address.fromData 0 signerPubKeyHash) in
  '(b, r) <- BufferReader.read 8 r ;;
  n <- hexStringToBigInt (Buffer_toString_hex b) ;;
  '(b, r) <- BufferReader.read 8 r ;;
  f <- hexStringToBigInt (Buffer_toString_hex b) ;;
  if is_single_key_mode mode then
    '(b, r) <- BufferReader.read 1 r ;;
    let encoding := Some (Buffer_toString_hex b) in
    '(sig, r) <- MessageSignature.deserialize_static r ;;
    Ok (mk (class this) mode address (Some n) (Some f) encoding sig
           (signaturesRequired this), r)
  else if is_threshold_mode mode then
    (* TODO *)
    Ok (mk (class this) mode address (Some n) (Some f)
           (pubKeyEncoding this) (signature this)
           (signaturesRequired this), r)
  else
    Ok (mk (class this) mode address (Some n) (Some f)
           (pubKeyEncoding this) (signature this)
           (signaturesRequired this), r).

(** Modelled from the spec: [message.ts] is not part of the sources at
    hand.  [SpendingCondition.deserialize(reader)], called on the class,
    is the "inverse read" that makes a fresh object with [new this()]
    (no arguments) and fills it with the instance method. *)
Definition deserialize_static (bufferReader : BufferReader.t)
  : result (t * BufferReader.t) :=
  deserialize (new None None None None) bufferReader.

(** [constructor] of [SingleSigSpendingCondition]: the base constructor,
    then [signaturesRequired = 1]. *)
Definition SingleSig_new (addressHashMode pubKey : option string)
    (nonce feeRate : option Z) : t :=
  let c := new addressHashMode pubKey nonce feeRate in
  mk SingleSig (SpendingCondition.addressHashMode c) (signerAddress c)
     (SpendingCondition.nonce c) (SpendingCondition.feeRate c)
     (pubKeyEncoding c) (signature c) (Some 1%Z).
End Methods.
End SpendingCondition.

(** ** Authorizations *)

Module Authorization.
Record t : Type := mk {
  authType : option string;
  spendingCondition : option SpendingCondition.t
}.

Section Methods.
Context {K : Constants} {X : Collaborators}.

Definition new (authType : option string)
    (spendingConditions : option SpendingCondition.t) : t :=
  mk authType spendingConditions.

Definition serialize (a : t) : result Buffer :=
  let bufferArray := BufferArray.new in
  ty <- defined (authType a) ;;
  let bufferArray := BufferArray.appendHexString ty bufferArray in
  if String.eqb ty AuthType_Standard then
    c <- defined (spendingCondition a) ;;
    s <- SpendingCondition.serialize c ;;
    let bufferArray := BufferArray.push s bufferArray in
    Ok (BufferArray.concatBuffer bufferArray)
  else if String.eqb ty AuthType_Sponsored then
    (* TODO *)
    Ok (BufferArray.concatBuffer bufferArray)
  else
    Ok (BufferArray.concatBuffer bufferArray).

Definition deserialize (this : t) (bufferReader : BufferReader.t)
  : result (t * BufferReader.t) :=
  '(b, r) <- BufferReader.read 1 bufferReader ;;
  let ty := Buffer_toString_hex b in
  if String.eqb ty AuthType_Standard then
    '(c, r) <- SpendingCondition.deserialize_static r ;;
    Ok (mk (Some ty) (Some c), r)
  else if String.eqb ty AuthType_Sponsored then
    (* TODO *)
    Ok (mk (Some ty) (spendingCondition this), r)
  else
    Ok (mk (Some ty) (spendingCondition this), r).

Definition StandardAuthorization (spendingCondition : SpendingCondition.t)
  : t := new (Some AuthType_Standard) (Some spendingCondition).

Definition SponsoredAuthorization (spendingCondition : SpendingCondition.t)
  : t := new (Some AuthType_Sponsored) (Some spendingCondition).
End Methods.
End Authorization.

(** ** The transaction seen by the signer *)

(** Modelled from the spec: [transaction.ts] is not part of the sources at
    hand.  Of the transaction the signer reads the authorization; the rest
    (payload and other fields "unrelated to authorization") is kept as an
    opaque [body]. *)
Module StacksTransaction.
Record t : Type := mk { auth : Authorization.t; body : string }.

Definition with_origin (c : SpendingCondition.t) (tx : t) : t :=
  mk (Authorization.mk (Authorization.authType (auth tx)) (Some c)) (body tx).

Section Methods.
Context {K : Constants} {X : Collaborators}.

(** Modelled from the spec: [transaction.ts] is not part of the sources
    at hand.  The chain step a successful [signOrigin] performs: "invoke
    SigHash Chain [step] on the origin condition with the session's
    [currentSigHash], fill the next empty slot with the resulting
    signature", and hand back the resulting hash.  The second component
    is the transaction after the call. *)
Definition signNextOrigin (sigHash : string)
    (privateKey : StacksPrivateKey) (tx : t) : result string * t :=
  let step :=
    c <- defined (Authorization.spendingCondition (auth tx)) ;;
    ty <- defined (Authorization.authType (auth tx)) ;;
    f <- defined (SpendingCondition.feeRate c) ;;
    n <- defined (SpendingCondition.nonce c) ;;
    '(nextSig, nextSigHash) <-
      SpendingCondition.nextSignature sigHash ty f n privateKey ;;
    Ok (nextSigHash, SpendingCondition.with_signature nextSig c) in
  match step with
  | Ok (nextSigHash, c') => (Ok nextSigHash, with_origin c' tx)
  | Err e => (Err e, tx)
  end.
End Methods.
End StacksTransaction.

(** ** The signing session *)

(** [a >= b] on numbers where [b] may be [undefined]: the comparison with
    [undefined] is false. *)
Definition js_ge (a : Z) (b : option Z) : bool :=
  match b with
  | Some b => (b <=? a)%Z
  | None => false
  end.

Module TransactionSigner.
Record t : Type := mk {
  transaction : StacksTransaction.t;
  sigHash : string;
  originDone : bool;
  checkOversign : bool;
  checkOverlap : bool
}.

Section Methods.
Context {K : Constants} {X : Collaborators}.

(** The two methods of [StacksTransaction] the signer calls;
    [signNextOrigin] returns the exception or the next hash together
    with the transaction as the call leaves it. *)
Variable signBegin : StacksTransaction.t -> string.
Variable signNextOrigin :
  string -> StacksPrivateKey -> StacksTransaction.t ->
  result string * StacksTransaction.t.

Definition new (transaction : StacksTransaction.t) : t :=
  {| transaction := transaction;
     sigHash := signBegin transaction;
     originDone := false;
     checkOversign := true;
     checkOverlap := true |}.

(** The first guard of [signOrigin]. *)
Definition overlap_guard (s : t) : bool :=
  checkOverlap s && originDone s.

(** The second guard of [signOrigin]; evaluating it dereferences the
    origin condition when [checkOversign] is set. *)
Definition oversign_guard (s : t) : result bool :=
  if checkOversign s then
    c <- defined (Authorization.spendingCondition
                    (StacksTransaction.auth (transaction s))) ;;
    Ok (js_ge (SpendingCondition.numSignatures c)
              (SpendingCondition.signaturesRequired c))
  else Ok false.

(** [signOrigin] past its first guard. *)
Definition signOrigin_unguarded (privateKey : StacksPrivateKey) (s : t)
  : result unit * t :=
  match oversign_guard s with
  | Err e => (Err e, s)
  | Ok true => (Err OversignError, s)
  | Ok false =>
      match signNextOrigin (sigHash s) privateKey (transaction s) with
      | (Ok nextSighash, tx) =>
          (Ok tt, mk tx nextSighash (originDone s) (checkOversign s)
                     (checkOverlap s))
      | (Err e, tx) =>
          (Err e, mk tx (sigHash s) (originDone s) (checkOversign s)
                     (checkOverlap s))
      end
  end.

(** [signOrigin(privateKey)]: the outcome of the call and the signer
    after it. *)
Definition signOrigin (privateKey : StacksPrivateKey) (s : t)
  : result unit * t :=
  if overlap_guard s then (Err OverlapError, s)
  else signOrigin_unguarded privateKey s.

(** What the runtime answers when a name that the class does not declare
    is called on a signer: a method inherited from [Object.prototype]
    ([toString], [valueOf], [hasOwnProperty], ...) returns normally, a
    property that does not exist throws [TypeError].  It is no code of
    [signer.ts], so the outcome is left open. *)
Variable inherited_call :
  string -> StacksPrivateKey -> t -> result unit.

(** Calling a method of a signer by name.  [signOrigin] is the one method
    the class declares; a call of any other name runs no code of the class
    and assigns none of the signer's fields. *)
Definition call (method : string) (privateKey : StacksPrivateKey) (s : t)
  : result unit * t :=
  if String.eqb method "signOrigin" then signOrigin privateKey s
  else (inherited_call method privateKey s, s).

(** The signer after a sequence of method calls, whatever their outcomes. *)
Fixpoint run (calls : list (string * StacksPrivateKey)) (s : t) : t :=
  match calls with
  | [] => s
  | (method, k) :: rest => run rest (snd (call method k s))
  end.
End Methods.
End TransactionSigner.

(** ** Concrete parameters for examples *)

(** The one-byte values of the Stacks wire format. *)
Definition stacks_constants : Constants :=
  {| AuthType_Standard := "04";
     AuthType_Sponsored := "05";
     AddressHashMode_SerializeP2PKH := "00";
     AddressHashMode_SerializeP2SH := "01";
     AddressHashMode_SerializeP2WPKH := "02";
     AddressHashMode_SerializeP2WSH := "03";
     PubKeyEncoding_Compressed := "00";
     PubKeyEncoding_Uncompressed := "01" |}.

(** Stand-ins of the right shape for the collaborators, used only to run the
    definitions on concrete inputs: keys are strings, the "hash" is the
    first 32 bytes of its input after 32 bytes of [0xab]-padding on the
    right, and the "signature" of a hash is a recovery byte [01] followed
    by the hash twice. *)
Definition demo_hash (m : string) : string :=
  Buffer_toString_hex
    (firstn 32 (Buffer_from_hex m ++ repeat xab 32)%list).

Definition demo_collaborators : Collaborators :=
  {| StacksPrivateKey := string;
     StacksPublicKey := string;
     StacksPublicKey_new := fun s => s;
     compressed := fun pk => (String.length pk =? 66)%nat;
     sign := fun _ h => MessageSignature.mk (Some ("01" ++ h ++ h));
     getPublicKey := fun sk => "02" ++ sk;
     Address_fromPublicKeys := fun v _ _ _ =>
       Address.mk v (Buffer_toString_hex (repeat x11 20));
     sha512_256 := demo_hash |}.

Definition H0 : string := Buffer_toString_hex (repeat x2a 32).
Definition demo_key : string := Buffer_toString_hex (repeat x07 32).
Definition demo_condition : SpendingCondition.t :=
  @SpendingCondition.SingleSig_new stacks_constants demo_collaborators
    (Some "00") (Some ("02" ++ demo_key)) (Some 0%Z) (Some 180%Z).
Definition demo_tx : StacksTransaction.t :=
  StacksTransaction.mk
    (@Authorization.StandardAuthorization stacks_constants demo_condition)
    "payload".
Definition demo_signer : TransactionSigner.t :=
  TransactionSigner.new (fun _ => H0) demo_tx.

Definition demo_signNextOrigin :=
  StacksTransaction.signNextOrigin (K:=stacks_constants) (X:=demo_collaborators).

(** ** Vocabulary of the statements *)

(** The bytes a reader has not consumed yet. *)
Definition remaining (r : BufferReader.t) : Buffer :=
  skipn (BufferReader.index r) (BufferReader.buffer r).

(** The number written by a buffer read as a big-endian integer. *)
Definition be_value (buf : Buffer) : N :=
  fold_left (fun acc b => (256 * acc + Byte.to_N b)%N) buf 0%N.

(** Lower-case hex text of exactly [w] bytes. *)
Definition hex_of_width (w : nat) (s : string) : Prop :=
  canonical_hex s /\ byteLength (Buffer_from_hex s) = w.

Definition u64 (i : Z) : Prop := (0 <= i < 2 ^ 64)%Z.

(** Equality on the six fields that the wire format carries. *)
Definition same_fields (c c' : SpendingCondition.t) : Prop :=
  SpendingCondition.addressHashMode c' = SpendingCondition.addressHashMode c
  /\ SpendingCondition.signerAddress c' = SpendingCondition.signerAddress c
  /\ SpendingCondition.nonce c' = SpendingCondition.nonce c
  /\ SpendingCondition.feeRate c' = SpendingCondition.feeRate c
  /\ SpendingCondition.pubKeyEncoding c' = SpendingCondition.pubKeyEncoding c
  /\ SpendingCondition.signature c' = SpendingCondition.signature c.

(** [c] serializes, and decoding the bytes gives its six fields back. *)
Definition roundtrips {K : Constants} {X : Collaborators}
    (c : SpendingCondition.t) : Prop :=
  exists buf,
    SpendingCondition.serialize c = Ok buf
    /\ exists c' r,
         SpendingCondition.deserialize_static (BufferReader.new buf)
         = Ok (c', r)
         /\ same_fields c c'.

(** A condition of a single-key mode whose fields have the widths of the
    wire format: a version-0 address of 20 bytes, nonce and fee rate within
    64 bits, a one-byte key encoding and a 65-byte signature, the hex text
    in lower case. *)
Definition single_key_wire_form {K : Constants} (c : SpendingCondition.t)
  : Prop :=
  SpendingCondition.is_single_key_mode (SpendingCondition.addressHashMode c)
  = true
  /\ (exists d, SpendingCondition.signerAddress c = Some (Address.mk 0 d)
                /\ hex_of_width 20 d)
  /\ (exists n, SpendingCondition.nonce c = Some n /\ u64 n)
  /\ (exists f, SpendingCondition.feeRate c = Some f /\ u64 f)
  /\ (exists e, SpendingCondition.pubKeyEncoding c = Some e
                /\ hex_of_width 1 e)
  /\ (exists s, SpendingCondition.signature c = MessageSignature.mk (Some s)
                /\ hex_of_width 65 s).

(** The header that [serialize] writes for every mode. *)
Definition header (m d : string) (n f : Z) : Buffer :=
  (Buffer_from_hex m ++ Buffer_from_hex d
   ++ Buffer_from_hex (bigIntToHexString n 8)
   ++ Buffer_from_hex (bigIntToHexString f 8))%list.

Definition demo_address : string := Buffer_toString_hex (repeat x11 20).

(** What [new SpendingCondition(P2SH, key, 0n, 180n)] builds for a
    compressed key. *)
Definition demo_threshold_condition : SpendingCondition.t :=
  SpendingCondition.new (K:=stacks_constants) (X:=demo_collaborators)
    (Some "01") (Some ("02" ++ demo_key)) (Some 0%Z) (Some 180%Z).

(** Forty bytes that start with [0xff], which is no address hash mode. *)
Definition unknown_mode_buffer : Buffer := (xff :: repeat x01 39)%list.

(** The origin condition a signer looks at. *)
Definition origin (s : TransactionSigner.t) : option SpendingCondition.t :=
  Authorization.spendingCondition
    (StacksTransaction.auth (TransactionSigner.transaction s)).

(** What [signOrigin] needs of the transaction's chain step for a
    single-signature origin: when the step succeeds, the slot of the origin
    condition holds a signature. *)
Definition fills_single_slot {X : Collaborators}
    (signNextOrigin : string -> StacksPrivateKey -> StacksTransaction.t ->
                      result string * StacksTransaction.t) : Prop :=
  forall h k tx h' tx' c,
    signNextOrigin h k tx = (Ok h', tx') ->
    Authorization.spendingCondition (StacksTransaction.auth tx) = Some c ->
    SpendingCondition.class c = SingleSig ->
    exists c',
      Authorization.spendingCondition (StacksTransaction.auth tx') = Some c'
      /\ SpendingCondition.class c' = SingleSig
      /\ SpendingCondition.signaturesRequired c'
         = SpendingCondition.signaturesRequired c
      /\ SpendingCondition.numSignatures c' = 1%Z.

(** The demo signer after one call of [signOrigin]. *)
Definition demo_signer_signed : TransactionSigner.t :=
  snd (TransactionSigner.signOrigin demo_signNextOrigin demo_key demo_signer).

(** A signer whose origin is fully signed and whose [originDone] field has
    been set by its owner. *)
Definition demo_signer_origin_done : TransactionSigner.t :=
  TransactionSigner.mk
    (TransactionSigner.transaction demo_signer_signed)
    (TransactionSigner.sigHash demo_signer_signed)
    true true true.

(** What [signOrigin] leaves behind once both guards have let the call
    through: the chain step is run on the current sighash, its hash is stored
    on success, and on an exception the sighash stays as it was. *)
Definition chain_step_outcome {X : Collaborators}
    (signNextOrigin : string -> StacksPrivateKey -> StacksTransaction.t ->
                      result string * StacksTransaction.t)
    (k : StacksPrivateKey) (s : TransactionSigner.t)
  : result unit * TransactionSigner.t :=
  match signNextOrigin (TransactionSigner.sigHash s) k
          (TransactionSigner.transaction s) with
  | (Ok h, tx) =>
      (Ok tt, TransactionSigner.mk tx h (TransactionSigner.originDone s)
                (TransactionSigner.checkOversign s)
                (TransactionSigner.checkOverlap s))
  | (Err e, tx) =>
      (Err e, TransactionSigner.mk tx (TransactionSigner.sigHash s)
                (TransactionSigner.originDone s)
                (TransactionSigner.checkOversign s)
                (TransactionSigner.checkOverlap s))
  end.

(** A fresh signer whose origin is a base-class condition with a filled
    signature slot. *)
Definition demo_signer_resigning : TransactionSigner.t :=
  TransactionSigner.new (fun _ => H0)
    (StacksTransaction.with_origin
       (SpendingCondition.with_signature
          (MessageSignature.mk (Some ("01" ++ H0 ++ H0)))
          demo_threshold_condition)
       demo_tx).

(** A fresh signer whose authorization has no spending condition. *)
Definition demo_signer_no_origin : TransactionSigner.t :=
  TransactionSigner.new (fun _ => H0)
    (StacksTransaction.mk (Authorization.mk (Some "04") None) "payload").

(** ** The hash primitive *)

(** SHA-512/256 of FIPS 180-4, the function that the import [sha512_256] of
    [vendor/js-sha512] names; the library is not part of the sources at
    hand.  Words are 64 bits; the round constants and the initial values are
    computed as the standard defines them (fractional parts of the cube and
    square roots of the first primes; the initial value of SHA-512/256 by
    the IV generation function). *)
Module SHA512.
Local Open Scope N_scope.

Definition mask : N := 2 ^ 64 - 1.
Definition add64 (a b : N) : N := (a + b) mod 2 ^ 64.
Definition rotr (n x : N) : N :=
  N.lor (N.shiftr x n) (N.land (N.shiftl x (64 - n)) mask).
Definition Ch (x y z : N) : N :=
  N.lxor (N.land x y) (N.land (N.lxor x mask) z).
Definition Maj (x y z : N) : N :=
  N.lxor (N.lxor (N.land x y) (N.land x z)) (N.land y z).
Definition Sigma0 (x : N) : N :=
  N.lxor (N.lxor (rotr 28 x) (rotr 34 x)) (rotr 39 x).
Definition Sigma1 (x : N) : N :=
  N.lxor (N.lxor (rotr 14 x) (rotr 18 x)) (rotr 41 x).
Definition sigma0 (x : N) : N :=
  N.lxor (N.lxor (rotr 1 x) (rotr 8 x)) (N.shiftr x 7).
Definition sigma1 (x : N) : N :=
  N.lxor (N.lxor (rotr 19 x) (rotr 61 x)) (N.shiftr x 6).

Definition is_prime (n : nat) : bool :=
  forallb (fun d => negb (Nat.eqb (Nat.modulo n d) 0)) (seq 2 (n - 2)).

(** The first eighty primes. *)
Definition primes : list N :=
  Eval vm_compute in map N.of_nat (filter is_prime (seq 2 408)).

(** The largest [x] below [2 ^ bits] above [acc] with [x ^ 3 <= n], found
    bit by bit. *)
Fixpoint cube_root (bits : nat) (n acc : N) : N :=
  match bits with
  | O => acc
  | S b =>
      let x := acc + 2 ^ N.of_nat b in
      cube_root b n (if x * x * x <=? n then x else acc)
  end.

Definition K : list N :=
  Eval vm_compute in
    map (fun p => cube_root 70 (p * 2 ^ 192) 0 mod 2 ^ 64) primes.

Definition IV512 : list N :=
  Eval vm_compute in
    map (fun p => N.sqrt (p * 2 ^ 128) mod 2 ^ 64) (firstn 8 primes).

Fixpoint chunks {A : Type} (fuel size : nat) (l : list A) : list (list A) :=
  match fuel, l with
  | O, _ | _, [] => []
  | S fuel', _ => firstn size l :: chunks fuel' size (skipn size l)
  end.

Definition pad (msg : Buffer) : Buffer :=
  let len := N.of_nat (List.length msg) in
  let k := N.to_nat ((128 - (len + 17) mod 128) mod 128) in
  (msg ++ [x80] ++ repeat x00 k ++ be_bytes 16 (8 * len))%list.

Fixpoint schedule (n : nat) (w : list N) : list N :=
  match n with
  | O => w
  | S n' =>
      let t := List.length w in
      let at_ i := nth (t - i) w 0 in
      schedule n'
        (w ++ [add64 (add64 (sigma1 (at_ 2%nat)) (at_ 7%nat))
                     (add64 (sigma0 (at_ 15%nat)) (at_ 16%nat))])%list
  end.

Definition round (s : list N) (kw : N * N) : list N :=
  match s with
  | [a; b; c; d; e; f; g; h] =>
      let t1 :=
        add64 (add64 (add64 h (Sigma1 e)) (Ch e f g))
              (add64 (fst kw) (snd kw)) in
      let t2 := add64 (Sigma0 a) (Maj a b c) in
      [add64 t1 t2; a; b; c; add64 d t1; e; f; g]
  | _ => s
  end.

Definition compress (h : list N) (block : Buffer) : list N :=
  let w := schedule 64 (map be_value (chunks 16 8 block)) in
  let s := fold_left round (combine K w) h in
  map (fun p => add64 (fst p) (snd p)) (combine h s).

Definition digest (iv : list N) (msg : Buffer) : Buffer :=
  let padded := pad msg in
  let blocks := chunks (List.length padded) 128 padded in
  concat (map (be_bytes 8) (fold_left compress blocks iv)).

Definition IV512_256 : list N :=
  Eval vm_compute in
    map be_value
      (chunks 8 8
         (digest (map (fun h => N.lxor h 0xa5a5a5a5a5a5a5a5) IV512)
                 (list_byte_of_string "SHA-512/256"))).

Definition sha512_256 (msg : Buffer) : Buffer :=
  firstn 32 (digest IV512_256 msg).
End SHA512.

(** [sha512_256(message)] of the vendored library on a string: the string is
    hashed as the bytes of its characters (its UTF-8 encoding, one byte per
    character for hex digits) and the digest is returned as lower-case hex
    text. *)
Definition js_sha512_256 (message : string) : string :=
  Buffer_toString_hex (SHA512.sha512_256 (list_byte_of_string message)).

(** The demo collaborators with the hash parameter set to SHA-512/256. *)
Definition sha_collaborators : Collaborators :=
  {| StacksPrivateKey := string;
     StacksPublicKey := string;
     StacksPublicKey_new := fun s => s;
     compressed := fun pk => (String.length pk =? 66)%nat;
     sign := fun _ h => MessageSignature.mk (Some ("01" ++ h ++ h));
     getPublicKey := fun sk => "02" ++ sk;
     Address_fromPublicKeys := fun v _ _ _ =>
       Address.mk v (Buffer_toString_hex (repeat x11 20));
     sha512_256 := js_sha512_256 |}.

(** * Properties *)

Ltac Zify.zify_post_hook ::= Z.to_euclidean_division_equations.

(** ** Hex text and buffers *)

Lemma hex_val_hex_char (n : N) :
  (n < 16)%N -> hex_val (hex_char n) = Some n.
Proof.
  intros Hn.
  rewrite <- (N2Nat.id n).
  assert (Hk : (N.to_nat n < 16)%nat) by lia.
  generalize dependent (N.to_nat n). clear Hn. intros k Hk.
  do 16 (destruct k as [|k]; [reflexivity|]).
  lia.
Qed.

Lemma byte_nibbles (b : byte) :
  byte_of_N (16 * (Byte.to_N b / 16) + Byte.to_N b mod 16) = b.
Proof.
  rewrite <- N.div_mod by discriminate.
  unfold byte_of_N. now rewrite Byte.of_to_N.
Qed.

Lemma to_N_byte_of_N (n : N) : (n < 256)%N -> Byte.to_N (byte_of_N n) = n.
Proof.
  intros Hn. unfold byte_of_N.
  destruct (Byte.of_N n) as [b|] eqn:E.
  - now apply Byte.to_of_N.
  - apply Byte.of_N_None_iff in E. lia.
Qed.

Lemma from_hex_toString_app (buf : Buffer) (s : string) :
  Buffer_from_hex (Buffer_toString_hex buf ++ s)
  = (buf ++ Buffer_from_hex s)%list.
Proof.
  induction buf as [|b buf IH].
  - reflexivity.
  - pose proof (Byte.to_N_bounded b) as Hb.
    cbn [Buffer_toString_hex append Buffer_from_hex app].
    rewrite !hex_val_hex_char by lia.
    now rewrite byte_nibbles, IH.
Qed.

Lemma append_empty_r (s : string) : s ++ "" = s.
Proof. induction s as [|c s IH]; [reflexivity|]. cbn. now rewrite IH. Qed.

Lemma append_assoc (a b c : string) : (a ++ b) ++ c = a ++ (b ++ c).
Proof. induction a as [|x a IH]; [reflexivity|]. cbn. now rewrite IH. Qed.

Lemma from_hex_toString (buf : Buffer) :
  Buffer_from_hex (Buffer_toString_hex buf) = buf.
Proof.
  rewrite <- (append_empty_r (Buffer_toString_hex buf)).
  rewrite from_hex_toString_app. cbn. apply app_nil_r.
Qed.

Lemma toString_hex_app (a b : Buffer) :
  Buffer_toString_hex (a ++ b)%list
  = Buffer_toString_hex a ++ Buffer_toString_hex b.
Proof.
  induction a as [|x a IH]; [reflexivity|]. cbn. now rewrite IH.
Qed.

Lemma canonical_from_hex_app (s u : string) :
  canonical_hex s ->
  Buffer_from_hex (s ++ u) = (Buffer_from_hex s ++ Buffer_from_hex u)%list.
Proof.
  unfold canonical_hex. intros Hs.
  rewrite <- Hs at 1. apply from_hex_toString_app.
Qed.

Lemma canonical_toString (buf : Buffer) :
  canonical_hex (Buffer_toString_hex buf).
Proof. unfold canonical_hex. now rewrite from_hex_toString. Qed.

Lemma one_byte_hex_spec (s : string) :
  one_byte_hex s = true ->
  canonical_hex s /\ byteLength (Buffer_from_hex s) = 1%nat.
Proof.
  unfold one_byte_hex, canonical_hex. intros H.
  apply andb_true_iff in H as [H1 H2].
  apply String.eqb_eq in H1. apply Nat.eqb_eq in H2. now split.
Qed.

(** ** Fixed-width integers *)

Lemma length_fixed_hex (k : nat) : forall n acc,
  String.length (fixed_hex k n acc) = (k + String.length acc)%nat.
Proof.
  induction k as [|k IH]; intros n acc; cbn; [reflexivity|].
  rewrite IH. cbn. lia.
Qed.

Lemma fixed_hex_zero (k : nat) : forall acc,
  fixed_hex k 0 acc = zeros k ++ acc.
Proof.
  induction k as [|k IH]; intros acc; [reflexivity|].
  cbn [fixed_hex]. change (0 / 16)%N with 0%N. rewrite IH.
  change (hex_char (0 mod 16)) with "0"%char.
  clear IH. induction k as [|k IH]; [reflexivity|].
  cbn. f_equal. exact IH.
Qed.

Lemma hex_digits_fixed (k : nat) : forall fuel n acc,
  (1 <= k)%nat -> (1 <= fuel)%nat ->
  (n < 16 ^ N.of_nat k)%N -> (n < 16 ^ N.of_nat fuel)%N ->
  exists z,
    fixed_hex k n acc = zeros z ++ hex_digits fuel n acc
    /\ (String.length (hex_digits fuel n acc) + z
        = k + String.length acc)%nat.
Proof.
  induction k as [|k IH]; intros fuel n acc Hk Hf Hnk Hnf; [lia|].
  destruct fuel as [|fuel]; [lia|].
  rewrite Nat2N.inj_succ, N.pow_succ_r' in Hnk, Hnf.
  cbn [fixed_hex hex_digits].
  destruct (N.eqb_spec (n / 16) 0) as [E|E].
  - rewrite E, fixed_hex_zero. exists k. split; [reflexivity|]. cbn. lia.
  - assert (Hq : (n / 16 < 16 ^ N.of_nat k)%N)
      by (apply N.Div0.div_lt_upper_bound; lia).
    assert (Hq' : (n / 16 < 16 ^ N.of_nat fuel)%N)
      by (apply N.Div0.div_lt_upper_bound; lia).
    assert (Hk' : (1 <= k)%nat).
    { destruct k; [|lia]. cbn in Hq. lia. }
    assert (Hf' : (1 <= fuel)%nat).
    { destruct fuel; [|lia]. cbn in Hq'. lia. }
    destruct (IH fuel (n / 16)%N
                (String (hex_char (n mod 16)) acc) Hk' Hf' Hq Hq')
      as [z [Hz Hl]].
    exists z. split; [exact Hz|]. rewrite Hl. cbn. lia.
Qed.

Lemma enough_fuel (n : N) :
  (n < 16 ^ N.of_nat (S (N.to_nat (N.log2 n))))%N.
Proof.
  rewrite Nat2N.inj_succ, N2Nat.id.
  destruct (N.eq_dec n 0) as [->|Hn]; [reflexivity|].
  destruct (N.log2_spec n) as [_ H]; [lia|].
  eapply N.lt_le_trans; [exact H|].
  apply N.pow_le_mono_l. lia.
Qed.

Lemma padStart_toString16 (k : nat) (n : N) :
  (1 <= k)%nat -> (n < 16 ^ N.of_nat k)%N ->
  padStart k (N_toString16 n) = fixed_hex k n "".
Proof.
  intros Hk Hn. unfold padStart, N_toString16.
  destruct (hex_digits_fixed k (S (N.to_nat (N.log2 n))) n ""
              Hk ltac:(lia) Hn (enough_fuel n)) as [z [Hz Hl]].
  rewrite Hz. cbn [String.length] in Hl.
  replace (k - _)%nat with z by lia. reflexivity.
Qed.

Lemma fixed_hex_be_bytes (k : nat) : forall n acc,
  fixed_hex (k + k) n (Buffer_toString_hex acc)
  = Buffer_toString_hex (be_bytes_acc k n acc).
Proof.
  induction k as [|k IH]; intros n acc; [reflexivity|].
  rewrite Nat.add_succ_r. cbn [Nat.add fixed_hex be_bytes_acc].
  rewrite <- IH. cbn [Buffer_toString_hex].
  rewrite to_N_byte_of_N by (apply N.mod_upper_bound; discriminate).
  replace (n / 16 / 16)%N with (n / 256)%N by lia.
  replace (n mod 256 / 16)%N with ((n / 16) mod 16)%N by lia.
  replace ((n mod 256) mod 16)%N with (n mod 16)%N by lia.
  reflexivity.
Qed.

Lemma length_be_bytes_acc (k : nat) : forall n acc,
  List.length (be_bytes_acc k n acc) = (k + List.length acc)%nat.
Proof.
  induction k as [|k IH]; intros n acc; cbn; [reflexivity|].
  rewrite IH. cbn. lia.
Qed.

Lemma length_u64_be (i : Z) : List.length (u64_be i) = 8%nat.
Proof. unfold u64_be, be_bytes. now rewrite length_be_bytes_acc. Qed.

(** A value that fits 64 bits is written as the hex text of its eight
    big-endian bytes. *)
Lemma bigIntToHexString_u64 (i : Z) :
  (0 <= i < 2 ^ 64)%Z ->
  bigIntToHexString i 8 = Buffer_toString_hex (u64_be i).
Proof.
  intros Hi. unfold bigIntToHexString, BigInt_toString16.
  destruct (Z.ltb_spec i 0) as [|_]; [lia|].
  rewrite padStart_toString16.
  - exact (fixed_hex_be_bytes 8 (Z.to_N i) []).
  - cbn. lia.
  - change (16 ^ N.of_nat (2 * 8))%N with (Z.to_N (2 ^ 64)). lia.
Qed.

Lemma hex_value_fixed_hex (k : nat) : forall n acc a,
  hex_value (fixed_hex k n acc) a
  = hex_value acc (a * 16 ^ N.of_nat k + n mod 16 ^ N.of_nat k).
Proof.
  induction k as [|k IH]; intros n acc a.
  - cbn [fixed_hex]. f_equal. cbn. rewrite N.mod_1_r. lia.
  - cbn [fixed_hex]. rewrite IH. cbn [hex_value].
    rewrite hex_val_hex_char by (apply N.mod_upper_bound; discriminate).
    f_equal. rewrite Nat2N.inj_succ, N.pow_succ_r'.
    rewrite N.Div0.mod_mul_r. ring.
Qed.

Lemma hexStringToBigInt_u64 (i : Z) :
  (0 <= i < 2 ^ 64)%Z ->
  hexStringToBigInt (Buffer_toString_hex (u64_be i)) = Ok i.
Proof.
  intros Hi. unfold u64_be, be_bytes.
  rewrite <- (fixed_hex_be_bytes 8 (Z.to_N i) []).
  unfold hexStringToBigInt.
  destruct (fixed_hex (8 + 8) (Z.to_N i) (Buffer_toString_hex [])) eqn:E.
  - apply (f_equal String.length) in E.
    rewrite length_fixed_hex in E. discriminate.
  - rewrite <- E, hex_value_fixed_hex. cbn [Buffer_toString_hex hex_value].
    rewrite N.mod_small.
    + f_equal. lia.
    + change (16 ^ N.of_nat (8 + 8))%N with (Z.to_N (2 ^ 64)). lia.
Qed.

(** ** The pre-sign hash *)

Lemma demo_hash_length (m : string) :
  byteLength (Buffer_from_hex (demo_hash m)) = 32%nat.
Proof.
  unfold demo_hash, byteLength. rewrite from_hex_toString.
  rewrite length_firstn, length_app, repeat_length. lia.
Qed.

(** The guard of [makeSigHashPreSign] fires exactly when the material is
    longer than 49 bytes. *)
Lemma makeSigHashPreSign_guard (X : Collaborators)
    (curSigHash authType : string) (feeRate nonce : Z) :
  let material :=
    SpendingCondition.preSignMaterial curSigHash authType feeRate nonce in
  (SpendingCondition.makeSigHashPreSign curSigHash authType feeRate nonce
   = Err EncodingLengthError
   <-> (49 < byteLength (Buffer_from_hex material))%nat)
  /\ ((byteLength (Buffer_from_hex material) <= 49)%nat ->
      SpendingCondition.makeSigHashPreSign curSigHash authType feeRate nonce
      = Ok (sha512_256 material)).
Proof.
  cbv zeta. unfold SpendingCondition.makeSigHashPreSign.
  change (32 + 1 + 8 + 8)%nat with 49%nat.
  destruct (Nat.ltb_spec 49
    (byteLength (Buffer_from_hex
       (SpendingCondition.preSignMaterial curSigHash authType feeRate nonce))))
    as [H|H].
  - split; [split; [intros _; exact H | reflexivity] | lia].
  - split; [split; [discriminate | lia] | reflexivity].
Qed.

(** What the code computes on inputs of wire width.  For a 32-byte current
    sighash, an authType byte and a fee
    rate and nonce that fit 64 bits, the pre-hash material is the 49 bytes
    curHash (32) || authType (1) || feeRate big-endian (8) || nonce
    big-endian (8); [makeSigHashPreSign] does not throw and returns what the
    hash primitive returns on the lower-case hex text of exactly these
    bytes (98 characters, the string that the code hands to the primitive),
    a 32-byte value when the primitive's output is 32 bytes; equal inputs
    give the equal result. *)
Theorem makeSigHashPreSign_hashes_49_bytes (X : Collaborators)
    (curHash : Buffer) (authType : byte) (feeRate nonce : Z) :
  (forall m, byteLength (Buffer_from_hex (sha512_256 m)) = 32%nat) ->
  byteLength curHash = 32%nat ->
  (0 <= feeRate < 2 ^ 64)%Z ->
  (0 <= nonce < 2 ^ 64)%Z ->
  let material :=
    (curHash ++ [authType] ++ u64_be feeRate ++ u64_be nonce)%list in
  let call :=
    SpendingCondition.makeSigHashPreSign
      (Buffer_toString_hex curHash) (Buffer_toString_hex [authType]) in
  byteLength material = 49%nat
  /\ call feeRate nonce = Ok (sha512_256 (Buffer_toString_hex material))
  /\ (exists digest,
        call feeRate nonce = Ok digest
        /\ byteLength (Buffer_from_hex digest) = 32%nat)
  /\ (forall feeRate' nonce',
        feeRate' = feeRate -> nonce' = nonce ->
        call feeRate' nonce' = call feeRate nonce).
Proof.
  intros Hsha Hcur Hfee Hnonce material call.
  assert (Hlen : byteLength material = 49%nat).
  { unfold material, byteLength in *.
    rewrite !length_app, !length_u64_be, Hcur. reflexivity. }
  assert (Hmat :
    SpendingCondition.preSignMaterial (Buffer_toString_hex curHash)
      (Buffer_toString_hex [authType]) feeRate nonce
    = Buffer_toString_hex material).
  { unfold SpendingCondition.preSignMaterial, material.
    rewrite !bigIntToHexString_u64 by assumption.
    now rewrite !toString_hex_app. }
  assert (Hcall :
    call feeRate nonce = Ok (sha512_256 (Buffer_toString_hex material))).
  { destruct (makeSigHashPreSign_guard X (Buffer_toString_hex curHash)
                (Buffer_toString_hex [authType]) feeRate nonce) as [_ Hok].
    unfold call. rewrite Hok; rewrite Hmat.
    - reflexivity.
    - rewrite from_hex_toString. lia. }
  repeat split.
  - exact Hlen.
  - exact Hcall.
  - eexists. split; [exact Hcall | apply Hsha].
  - intros ? ? -> ->. reflexivity.
Qed.

(** The scenario of the spec: nonce 0, fee rate 180, authType 0x04. *)
Lemma makeSigHashPreSign_hashes_49_bytes_witness :
  SpendingCondition.makeSigHashPreSign (X:=demo_collaborators)
    H0 "04" 180 0
  = Ok (demo_hash
          (H0 ++ "04" ++ "00000000000000b4" ++ "0000000000000000")).
Proof.
  exact (proj1 (proj2
    (makeSigHashPreSign_hashes_49_bytes demo_collaborators
       (repeat x2a 32) x04 180 0
       demo_hash_length eq_refl
       ltac:(lia) ltac:(lia)))).
Defined.

(** The standard's test vector for SHA-512/256: the message [abc]. *)
Lemma sha512_256_abc :
  js_sha512_256 "abc"
  = "53048e2681941ef99b2e29b76b4c7dabe4c2d0c634fc6d46e0e2f13107e7af23".
Proof. vm_compute. reflexivity. Qed.

(** C1.  The claim puts the hash over the 49 bytes of the material; the
    code measures these bytes in its guard but hands the primitive the
    98-character hex text.  With SHA-512/256, for 32 bytes [0x2a], authType
    [0x04], fee rate 180 and nonce 0, [makeSigHashPreSign] returns the
    digest of the text, which is not the digest of the 49 bytes. *)
Lemma makeSigHashPreSign_hashes_text_not_bytes :
  let material :=
    (repeat x2a 32 ++ [x04] ++ u64_be 180 ++ u64_be 0)%list in
  byteLength material = 49%nat
  /\ SpendingCondition.makeSigHashPreSign (X:=sha_collaborators)
       (Buffer_toString_hex (repeat x2a 32)) (Buffer_toString_hex [x04])
       180 0
     = Ok "73cb73ed9516c4733f41eeefaf7d6e3bc20a89f22f4a625679ed75ea6fba3037"
  /\ Buffer_toString_hex (SHA512.sha512_256 material)
     = "34474f506948d8aec07cfaf4a6ba01eab0b3c37e84372348bcc6afaf9fdc4661"
  /\ SpendingCondition.makeSigHashPreSign (X:=sha_collaborators)
       (Buffer_toString_hex (repeat x2a 32)) (Buffer_toString_hex [x04])
       180 0
     <> Ok (Buffer_toString_hex (SHA512.sha512_256 material)).
Proof.
  cbv zeta.
  assert (Hcode :
    SpendingCondition.makeSigHashPreSign (X:=sha_collaborators)
      (Buffer_toString_hex (repeat x2a 32)) (Buffer_toString_hex [x04])
      180 0
    = Ok "73cb73ed9516c4733f41eeefaf7d6e3bc20a89f22f4a625679ed75ea6fba3037")
    by (vm_compute; reflexivity).
  assert (Hbytes :
    Buffer_toString_hex
      (SHA512.sha512_256
         (repeat x2a 32 ++ [x04] ++ u64_be 180 ++ u64_be 0)%list)
    = "34474f506948d8aec07cfaf4a6ba01eab0b3c37e84372348bcc6afaf9fdc4661")
    by (vm_compute; reflexivity).
  split; [reflexivity|]. split; [exact Hcode|]. split; [exact Hbytes|].
  rewrite Hcode, Hbytes. discriminate.
Qed.

(** C2.  The length guard compares with [>]: a current sighash of 31 bytes
    gives 48 bytes of pre-hash material, and [makeSigHashPreSign] hashes
    them instead of throwing; the same call with 33 bytes throws. *)
Theorem makeSigHashPreSign_hashes_short_material (X : Collaborators) :
  let short := Buffer_toString_hex (repeat x2a 31) in
  let long := Buffer_toString_hex (repeat x2a 33) in
  byteLength (Buffer_from_hex
                (SpendingCondition.preSignMaterial short "04" 180 0))
  = 48%nat
  /\ SpendingCondition.makeSigHashPreSign short "04" 180 0
     = Ok (sha512_256 (SpendingCondition.preSignMaterial short "04" 180 0))
  /\ SpendingCondition.makeSigHashPreSign long "04" 180 0
     = Err EncodingLengthError.
Proof. repeat split. Qed.

(** ** Signature values *)

Lemma sentinel_text :
  MessageSignature.signature MessageSignature.empty
  = Some (zeros 130)
  /\ Buffer_from_hex (zeros 130) = repeat x00 65.
Proof. split; reflexivity. Qed.

(** C10, as the claim states it, fails at the empty string: an argument is
    supplied, it decodes to 0 bytes, and the constructor does not throw. *)
Lemma MessageSignature_new_accepts_empty_string :
  ~ (forall arg : option string,
       MessageSignature.new arg = Err InvalidSignatureLength
       <-> exists s, arg = Some s
                     /\ byteLength (Buffer_from_hex s) <> 65%nat).
Proof.
  intros claim.
  destruct (claim (Some "")) as [_ throws].
  assert (H : MessageSignature.new (Some "") = Err InvalidSignatureLength).
  { apply throws. exists "". split; [reflexivity | discriminate]. }
  discriminate H.
Qed.

(** C10, amended.  The constructor throws its invalid-length error exactly
    when the argument is a non-empty string whose hex decoding is not 65
    bytes long; in every other case it stores the argument as given.  With
    no argument (and with the empty string) nothing is checked and the field
    stays [undefined] (the empty string); [MessageSignature.empty()] yields
    the hex text of 65 zero bytes, which the constructor also accepts as an
    argument. *)
Theorem MessageSignature_new_throws_iff (arg : option string) :
  (MessageSignature.new arg = Err InvalidSignatureLength
   <-> exists s, arg = Some s /\ s <> ""
                 /\ byteLength (Buffer_from_hex s) <> 65%nat)
  /\ (MessageSignature.new arg = Err InvalidSignatureLength
      \/ MessageSignature.new arg = Ok (MessageSignature.mk arg))
  /\ MessageSignature.new None = Ok (MessageSignature.mk None)
  /\ MessageSignature.new (Some "") = Ok (MessageSignature.mk (Some ""))
  /\ MessageSignature.signature MessageSignature.empty
     = Some (Buffer_toString_hex (repeat x00 65))
  /\ MessageSignature.new (Some (zeros 130)) = Ok MessageSignature.empty.
Proof.
  repeat split; try reflexivity.
  - unfold MessageSignature.new. intros H.
    destruct arg as [[|c s]|]; cbn [truthy] in H; try discriminate.
    exists (String c s). repeat split; [discriminate|].
    cbn [String_of] in H. unfold RECOVERABLE_ECDSA_SIG_LENGTH_BYTES in H.
    destruct (Nat.eqb_spec (byteLength (Buffer_from_hex (String c s))) 65);
      [discriminate | assumption].
  - intros [s [-> [Hs Hlen]]]. unfold MessageSignature.new.
    destruct s as [|c s]; [congruence|]. cbn [truthy String_of].
    unfold RECOVERABLE_ECDSA_SIG_LENGTH_BYTES.
    destruct (Nat.eqb_spec (byteLength (Buffer_from_hex (String c s))) 65);
      [contradiction | reflexivity].
  - unfold MessageSignature.new.
    destruct (truthy arg); [|right; reflexivity].
    destruct (negb _); [left | right]; reflexivity.
Qed.

Lemma MessageSignature_new_throws_iff_witness :
  MessageSignature.new (Some "00ff") = Err InvalidSignatureLength.
Proof.
  apply (proj1 (MessageSignature_new_throws_iff (Some "00ff"))).
  exists "00ff". repeat split; discriminate.
Defined.

(** ** Single-signature conditions *)

(** The sentinel is the text of 130 characters [0], the lower-case hex of
    65 bytes that are all zero. *)
Lemma sentinel_is_130_zeros :
  MessageSignature.empty = MessageSignature.mk (Some (zeros 130))
  /\ String.length (zeros 130) = 130%nat
  /\ Buffer_from_hex (zeros 130) = repeat x00 65
  /\ Buffer_toString_hex (repeat x00 65) = zeros 130.
Proof. repeat split. Qed.

(** C7, as the claim states it, fails when the sentinel is taken as a value
    of 65 zero bytes: the text of 131 characters [0] is accepted by the
    [MessageSignature] constructor, writes the same 65 zero bytes as the
    sentinel, and a single-signature condition holding it reports one
    signature. *)
Lemma all_zero_signature_counts_as_signed :
  MessageSignature.new (Some (zeros 131))
  = Ok (MessageSignature.mk (Some (zeros 131)))
  /\ MessageSignature.serialize (MessageSignature.mk (Some (zeros 131)))
     = Ok (repeat x00 65)
  /\ MessageSignature.serialize MessageSignature.empty = Ok (repeat x00 65)
  /\ SpendingCondition.class demo_condition = SingleSig
  /\ SpendingCondition.numSignatures
       (SpendingCondition.with_signature
          (MessageSignature.mk (Some (zeros 131))) demo_condition)
     = 1%Z.
Proof. repeat split. Qed.

(** C7, amended.  A freshly constructed [SingleSigSpendingCondition] has
    [signaturesRequired = 1], its signature slot holds the sentinel, the
    text of 130 characters [0] (the hex of 65 zero bytes), and
    [numSignatures()] is 0.  For every single-signature condition
    [numSignatures()] is 0 when the text in the signature slot is identical
    to that sentinel text and 1 for every other slot, an undefined text and
    other texts that decode to 65 zero bytes included. *)
Theorem SingleSig_numSignatures_compares_text (K : Constants)
    (X : Collaborators) (addressHashMode pubKey : option string)
    (nonce feeRate : option Z) :
  let fresh :=
    SpendingCondition.SingleSig_new addressHashMode pubKey nonce feeRate in
  SpendingCondition.signaturesRequired fresh = Some 1%Z
  /\ SpendingCondition.numSignatures fresh = 0%Z
  /\ MessageSignature.signature (SpendingCondition.signature fresh)
     = Some (zeros 130)
  /\ String.length (zeros 130) = 130%nat
  /\ Buffer_from_hex (zeros 130) = repeat x00 65
  /\ forall c : SpendingCondition.t,
       SpendingCondition.class c = SingleSig ->
       let slot := MessageSignature.signature (SpendingCondition.signature c) in
       (slot = Some (zeros 130) -> SpendingCondition.numSignatures c = 0%Z)
       /\ (slot <> Some (zeros 130) ->
           SpendingCondition.numSignatures c = 1%Z).
Proof.
  cbv zeta. do 5 (split; [reflexivity|]).
  intros c Hclass.
  unfold SpendingCondition.numSignatures,
    SpendingCondition.SingleSig_numSignatures, MessageSignature.toString.
  rewrite Hclass.
  destruct sentinel_is_130_zeros as (-> & _).
  cbn [option_string_eqb MessageSignature.signature].
  destruct (MessageSignature.signature (SpendingCondition.signature c))
    as [s|]; cbn [option_string_eqb].
  - destruct (String.eqb_spec s (zeros 130)) as [->|Hne]; split; congruence.
  - split; [discriminate | reflexivity].
Qed.

Lemma SingleSig_numSignatures_compares_text_witness :
  SpendingCondition.numSignatures
    (SpendingCondition.with_signature
       (MessageSignature.mk (Some ("01" ++ H0 ++ H0))) demo_condition)
  = 1%Z.
Proof.
  apply (proj2 (proj2 (proj2 (proj2 (proj2
           (SingleSig_numSignatures_compares_text
              stacks_constants demo_collaborators
              None None None None)))))).
  - reflexivity.
  - discriminate.
Defined.

(** ** Reading a buffer in order *)

Lemma read_next (r : BufferReader.t) (a rest : Buffer) (n : nat) :
  List.length a = n ->
  (BufferReader.index r <= List.length (BufferReader.buffer r))%nat ->
  remaining r = (a ++ rest)%list ->
  exists r',
    BufferReader.read n r = Ok (a, r')
    /\ BufferReader.buffer r' = BufferReader.buffer r
    /\ BufferReader.index r' = (BufferReader.index r + n)%nat
    /\ (BufferReader.index r' <= List.length (BufferReader.buffer r'))%nat
    /\ remaining r' = rest.
Proof.
  unfold remaining. intros Hn Hidx Hrem.
  assert (Hlen : (BufferReader.index r + n
                  <= List.length (BufferReader.buffer r))%nat).
  { apply (f_equal (@List.length byte)) in Hrem.
    rewrite length_skipn, length_app in Hrem. lia. }
  exists (BufferReader.mk (BufferReader.buffer r) (BufferReader.index r + n)).
  unfold BufferReader.read.
  destruct (Nat.leb_spec (BufferReader.index r + n)
              (List.length (BufferReader.buffer r))) as [_|]; [|lia].
  cbn [BufferReader.buffer BufferReader.index].
  repeat split; try assumption.
  - rewrite Hrem, <- Hn, firstn_app, firstn_all, Nat.sub_diag.
    cbn. now rewrite app_nil_r.
  - rewrite Nat.add_comm, <- skipn_skipn, Hrem, <- Hn.
    rewrite skipn_app, skipn_all, Nat.sub_diag. reflexivity.
Qed.

Lemma hex_value_toString (buf : Buffer) : forall a,
  hex_value (Buffer_toString_hex buf) a
  = Some (fold_left (fun acc b => (256 * acc + Byte.to_N b)%N) buf a).
Proof.
  induction buf as [|b buf IH]; intros a; [reflexivity|].
  pose proof (Byte.to_N_bounded b) as Hb.
  cbn [Buffer_toString_hex hex_value fold_left].
  rewrite !hex_val_hex_char by lia.
  rewrite IH. do 2 f_equal. lia.
Qed.

Lemma hexStringToBigInt_toString (buf : Buffer) :
  buf <> [] ->
  hexStringToBigInt (Buffer_toString_hex buf) = Ok (Z.of_N (be_value buf)).
Proof.
  intros Hne. unfold hexStringToBigInt, be_value.
  rewrite hex_value_toString.
  destruct buf as [|b buf]; [contradiction | reflexivity].
Qed.

(** ** What the code needs of the constants *)

Ltac split_bools :=
  repeat match goal with
         | H : (_ && _)%bool = true |- _ => apply andb_true_iff in H as [? ?]
         | H : negb _ = true |- _ => apply negb_true_iff in H
         | H : (_ || _)%bool = false |- _ =>
             apply orb_false_iff in H as [? ?]
         end.

Lemma Constants_ok_single_key (K : Constants) (m : string) :
  Constants_ok K = true ->
  SpendingCondition.is_single_key_mode (Some m) = true ->
  hex_of_width 1 m.
Proof.
  unfold Constants_ok, SpendingCondition.is_single_key_mode. intros Hok Hm.
  cbn [forallb option_string_eqb] in *.
  split_bools.
  apply orb_true_iff in Hm as [Hm|Hm]; apply String.eqb_eq in Hm; subst m;
    now apply one_byte_hex_spec.
Qed.

Lemma Constants_ok_threshold (K : Constants) (m : option string) :
  Constants_ok K = true ->
  SpendingCondition.is_threshold_mode m = true ->
  SpendingCondition.is_single_key_mode m = false.
Proof.
  unfold Constants_ok, SpendingCondition.is_single_key_mode,
    SpendingCondition.is_threshold_mode.
  intros Hok Hm. destruct m as [m|]; [|reflexivity].
  cbn [distinct existsb option_string_eqb] in *.
  split_bools.
  apply orb_true_iff in Hm as [Hm|Hm]; apply String.eqb_eq in Hm; subst m;
    apply orb_false_iff; split;
    first [assumption | rewrite String.eqb_sym; assumption].
Qed.

Lemma Constants_ok_sponsored (K : Constants) :
  Constants_ok K = true ->
  String.eqb AuthType_Sponsored AuthType_Standard = false.
Proof.
  unfold Constants_ok. intros Hok.
  cbn [distinct existsb] in Hok.
  split_bools.
  rewrite String.eqb_sym. assumption.
Qed.

(** ** Encoding and decoding a spending condition *)

Lemma length_not_nil {A : Type} (l : list A) (n : nat) :
  List.length l = S n -> l <> [].
Proof. destruct l; [discriminate | discriminate]. Qed.

Lemma serialize_single_key (K : Constants) (c : SpendingCondition.t)
    (m : string) (a : Address.t) (n f : Z) (e s : string) :
  SpendingCondition.addressHashMode c = Some m ->
  SpendingCondition.is_single_key_mode (Some m) = true ->
  SpendingCondition.signerAddress c = Some a ->
  SpendingCondition.nonce c = Some n ->
  SpendingCondition.feeRate c = Some f ->
  SpendingCondition.pubKeyEncoding c = Some e ->
  SpendingCondition.signature c = MessageSignature.mk (Some s) ->
  SpendingCondition.serialize c
  = Ok (Buffer_from_hex m ++ Buffer_from_hex (Address.data a)
        ++ Buffer_from_hex (bigIntToHexString n 8)
        ++ Buffer_from_hex (bigIntToHexString f 8)
        ++ Buffer_from_hex e ++ Buffer_from_hex s)%list.
Proof.
  intros Hm Hsk Ha Hn Hf He Hs. unfold SpendingCondition.serialize.
  rewrite Hm, Ha, Hn, Hf, He, Hs, Hsk.
  cbn. now rewrite !app_nil_r.
Qed.

Lemma serialize_other_mode (K : Constants) (c : SpendingCondition.t)
    (m : string) (a : Address.t) (n f : Z) :
  SpendingCondition.addressHashMode c = Some m ->
  SpendingCondition.is_single_key_mode (Some m) = false ->
  SpendingCondition.signerAddress c = Some a ->
  SpendingCondition.nonce c = Some n ->
  SpendingCondition.feeRate c = Some f ->
  SpendingCondition.serialize c = Ok (header m (Address.data a) n f).
Proof.
  intros Hm Hsk Ha Hn Hf. unfold SpendingCondition.serialize, header.
  rewrite Hm, Ha, Hn, Hf, Hsk.
  destruct (SpendingCondition.is_threshold_mode (Some m));
    cbn; now rewrite !app_nil_r.
Qed.

(** Errors of [serialize]: only the runtime's [TypeError]. *)
Lemma serialize_errors (K : Constants) (c : SpendingCondition.t) (e : error) :
  SpendingCondition.serialize c = Err e -> e = TypeError.
Proof.
  unfold SpendingCondition.serialize, MessageSignature.serialize.
  destruct (SpendingCondition.addressHashMode c); cbn; [|congruence].
  destruct (SpendingCondition.signerAddress c); cbn; [|congruence].
  destruct (SpendingCondition.nonce c); cbn; [|congruence].
  destruct (SpendingCondition.feeRate c); cbn; [|congruence].
  destruct (SpendingCondition.is_single_key_mode _).
  - destruct (SpendingCondition.pubKeyEncoding c); cbn; [|congruence].
    destruct (MessageSignature.signature _); cbn; congruence.
  - destruct (SpendingCondition.is_threshold_mode _); congruence.
Qed.

Ltac read_step r a H :=
  let r' := fresh "r" in
  let E := fresh "E" in
  let Hb := fresh "Hb" in
  let Hi := fresh "Hi" in
  let Hle := fresh "Hle" in
  let Hrem := fresh "Hrem" in
  destruct (read_next r a _ _ H ltac:(assumption) ltac:(eassumption))
    as (r' & E & Hb & Hi & Hle & Hrem);
  rewrite E; cbn [bind].

Lemma reader_eq (r : BufferReader.t) (buf : Buffer) (i : nat) :
  BufferReader.buffer r = buf -> BufferReader.index r = i ->
  r = BufferReader.mk buf i.
Proof. destruct r. cbn. now intros -> ->. Qed.

Lemma deserialize_single_key (K : Constants) (this : SpendingCondition.t)
    (r : BufferReader.t) (b1 b2 b3 b4 b5 b6 rest : Buffer) :
  (BufferReader.index r <= List.length (BufferReader.buffer r))%nat ->
  remaining r = (b1 ++ b2 ++ b3 ++ b4 ++ b5 ++ b6 ++ rest)%list ->
  List.length b1 = 1%nat -> List.length b2 = 20%nat ->
  List.length b3 = 8%nat -> List.length b4 = 8%nat ->
  List.length b5 = 1%nat -> List.length b6 = 65%nat ->
  SpendingCondition.is_single_key_mode (Some (Buffer_toString_hex b1)) = true ->
  SpendingCondition.deserialize this r
  = Ok (SpendingCondition.mk (SpendingCondition.class this)
          (Some (Buffer_toString_hex b1))
          (Some (Address.fromData 0 (Buffer_toString_hex b2)))
          (Some (Z.of_N (be_value b3))) (Some (Z.of_N (be_value b4)))
          (Some (Buffer_toString_hex b5))
          (MessageSignature.mk (Some (Buffer_toString_hex b6)))
          (SpendingCondition.signaturesRequired this),
        BufferReader.mk (BufferReader.buffer r)
          (BufferReader.index r + 103)).
Proof.
  intros Hle0 Hrem0 H1 H2 H3 H4 H5 H6 Hmode.
  unfold SpendingCondition.deserialize.
  read_step r b1 H1. read_step r0 b2 H2. read_step r1 b3 H3.
  rewrite (hexStringToBigInt_toString b3 (length_not_nil _ _ H3)).
  cbn [bind].
  read_step r2 b4 H4.
  rewrite (hexStringToBigInt_toString b4 (length_not_nil _ _ H4)).
  cbn [bind]. rewrite Hmode.
  read_step r3 b5 H5.
  unfold MessageSignature.deserialize_static, MessageSignature.deserialize.
  cbn [MessageSignature.new truthy bind].
  unfold RECOVERABLE_ECDSA_SIG_LENGTH_BYTES.
  read_step r4 b6 H6.
  do 2 f_equal. apply reader_eq; [congruence | lia].
Qed.

Lemma deserialize_other_mode (K : Constants) (this : SpendingCondition.t)
    (r : BufferReader.t) (b1 b2 b3 b4 rest : Buffer) :
  (BufferReader.index r <= List.length (BufferReader.buffer r))%nat ->
  remaining r = (b1 ++ b2 ++ b3 ++ b4 ++ rest)%list ->
  List.length b1 = 1%nat -> List.length b2 = 20%nat ->
  List.length b3 = 8%nat -> List.length b4 = 8%nat ->
  SpendingCondition.is_single_key_mode (Some (Buffer_toString_hex b1)) = false ->
  SpendingCondition.deserialize this r
  = Ok (SpendingCondition.mk (SpendingCondition.class this)
          (Some (Buffer_toString_hex b1))
          (Some (Address.fromData 0 (Buffer_toString_hex b2)))
          (Some (Z.of_N (be_value b3))) (Some (Z.of_N (be_value b4)))
          (SpendingCondition.pubKeyEncoding this)
          (SpendingCondition.signature this)
          (SpendingCondition.signaturesRequired this),
        BufferReader.mk (BufferReader.buffer r)
          (BufferReader.index r + 37)).
Proof.
  intros Hle0 Hrem0 H1 H2 H3 H4 Hmode.
  unfold SpendingCondition.deserialize.
  read_step r b1 H1. read_step r0 b2 H2. read_step r1 b3 H3.
  rewrite (hexStringToBigInt_toString b3 (length_not_nil _ _ H3)).
  cbn [bind].
  read_step r2 b4 H4.
  rewrite (hexStringToBigInt_toString b4 (length_not_nil _ _ H4)).
  cbn [bind]. rewrite Hmode.
  assert (Hr : r3 = BufferReader.mk (BufferReader.buffer r)
                      (BufferReader.index r + 37))
    by (apply reader_eq; [congruence | lia]).
  rewrite Hr.
  destruct (SpendingCondition.is_threshold_mode _); reflexivity.
Qed.

Lemma Ok_inj {A : Type} (x y : A) : Ok x = Ok y -> x = y.
Proof. intros H. injection H as H. exact H. Qed.

Lemma be_value_u64 (i : Z) : u64 i -> Z.of_N (be_value (u64_be i)) = i.
Proof.
  intros Hi.
  pose proof (hexStringToBigInt_u64 i Hi) as A.
  rewrite hexStringToBigInt_toString in A.
  - exact (Ok_inj _ _ A).
  - apply (length_not_nil _ 7). apply length_u64_be.
Qed.

(** C3, as the claim states it, fails for a threshold mode: the condition
    that the constructor builds for P2SH and a compressed key has
    [pubKeyEncoding] set, [serialize] writes the 37-byte header only, and
    the decoded object has [pubKeyEncoding] undefined. *)
Lemma roundtrip_fails_for_threshold_mode :
  SpendingCondition.pubKeyEncoding demo_threshold_condition = Some "00"
  /\ (exists c' r,
        SpendingCondition.deserialize_static
          (K:=stacks_constants) (X:=demo_collaborators)
          (BufferReader.new (header "01" demo_address 0 180))
        = Ok (c', r)
        /\ SpendingCondition.pubKeyEncoding c' = None)
  /\ SpendingCondition.serialize (K:=stacks_constants)
       demo_threshold_condition
     = Ok (header "01" demo_address 0 180)
  /\ ~ roundtrips (K:=stacks_constants) (X:=demo_collaborators)
         demo_threshold_condition.
Proof.
  assert (Hser :
    SpendingCondition.serialize (K:=stacks_constants) demo_threshold_condition
    = Ok (header "01" demo_address 0 180)) by (vm_compute; reflexivity).
  assert (Hdes : exists c' r,
    SpendingCondition.deserialize_static
      (K:=stacks_constants) (X:=demo_collaborators)
      (BufferReader.new (header "01" demo_address 0 180))
    = Ok (c', r)
    /\ SpendingCondition.pubKeyEncoding c' = None).
  { eexists. eexists. split; [vm_compute; reflexivity | reflexivity]. }
  split; [vm_compute; reflexivity|].
  split; [exact Hdes|].
  split; [exact Hser|].
  intros (buf & Hbuf & c' & r & Hc' & Hsame).
  rewrite Hser in Hbuf. injection Hbuf as <-.
  destruct Hdes as (c2 & r2 & Hc2 & Hnone).
  rewrite Hc2 in Hc'. injection Hc' as <- <-.
  destruct Hsame as (_ & _ & _ & _ & Henc & _).
  rewrite Hnone in Henc. discriminate Henc.
Qed.

(** C3, amended.  For every spending condition of a single-key mode (P2PKH
    or P2WPKH) whose fields have the widths of the wire format,
    [deserialize(serialize(c))] gives back the six fields addressHashMode,
    signerAddress, nonce, feeRate, pubKeyEncoding and signature. *)
Theorem single_key_roundtrip (K : Constants) (X : Collaborators)
    (c : SpendingCondition.t) :
  Constants_ok K = true ->
  single_key_wire_form c ->
  roundtrips c.
Proof.
  intros HK (Hmode & (d & Hd & Hdc & Hdl) & (n & Hn & Hnr) & (f & Hf & Hfr)
             & (e & He & Hec & Hel) & (s & Hs & Hsc & Hsl)).
  destruct (SpendingCondition.addressHashMode c) as [m|] eqn:Hm;
    [|discriminate Hmode].
  destruct (Constants_ok_single_key K m HK Hmode) as [Hmc Hml].
  unfold roundtrips. eexists. split.
  { exact (serialize_single_key K c m _ n f e s Hm Hmode Hd Hn Hf He Hs). }
  cbn [Address.data].
  rewrite !bigIntToHexString_u64, !from_hex_toString by assumption.
  unfold SpendingCondition.deserialize_static.
  rewrite <- (app_nil_r (Buffer_from_hex s)).
  do 2 eexists. split.
  - eapply deserialize_single_key with (rest := []);
      try reflexivity; try assumption; try apply length_u64_be.
    + cbn. lia.
    + rewrite Hmc. exact Hmode.
  - unfold same_fields, Address.fromData.
    cbn [SpendingCondition.addressHashMode SpendingCondition.signerAddress
         SpendingCondition.nonce SpendingCondition.feeRate
         SpendingCondition.pubKeyEncoding SpendingCondition.signature].
    rewrite Hm, Hd, Hn, Hf, He, Hs, Hmc, Hdc, Hec, Hsc.
    rewrite !be_value_u64 by assumption.
    repeat split.
Qed.

Lemma single_key_roundtrip_witness :
  roundtrips (K:=stacks_constants) (X:=demo_collaborators) demo_condition.
Proof.
  apply single_key_roundtrip.
  - reflexivity.
  - unfold single_key_wire_form, hex_of_width, canonical_hex, u64.
    split; [reflexivity|].
    split; [exists demo_address; repeat split|].
    split; [exists 0%Z; split; [reflexivity | lia]|].
    split; [exists 180%Z; split; [reflexivity | lia]|].
    split; [exists "00"; repeat split|].
    exists (zeros 130). repeat split.
Defined.

(** C4, as the claim states it, fails: on a buffer that starts with [0xff]
    the decoder raises no error, stores the unknown mode and has consumed
    37 bytes when it returns. *)
Lemma deserialize_accepts_unknown_mode :
  exists c r,
    SpendingCondition.deserialize_static
      (K:=stacks_constants) (X:=demo_collaborators)
      (BufferReader.new unknown_mode_buffer)
    = Ok (c, r)
    /\ SpendingCondition.addressHashMode c = Some "ff"
    /\ BufferReader.index r = 37%nat.
Proof.
  eexists. eexists. split; [vm_compute; reflexivity|]. split; reflexivity.
Qed.

(** C4, amended.  For every reader with at least 37 unread bytes whose next
    byte is none of the four address hash modes, [deserialize] raises no
    error: it reads the 37-byte header (mode, 20-byte address, 8-byte nonce,
    8-byte fee rate), stores the unrecognised mode, leaves [pubKeyEncoding]
    undefined and the signature empty, and reads nothing after the
    header. *)
Theorem deserialize_unknown_mode_reads_header (K : Constants)
    (X : Collaborators) (r : BufferReader.t)
    (mode address nonce feeRate rest : Buffer) :
  (BufferReader.index r <= List.length (BufferReader.buffer r))%nat ->
  remaining r = (mode ++ address ++ nonce ++ feeRate ++ rest)%list ->
  List.length mode = 1%nat -> List.length address = 20%nat ->
  List.length nonce = 8%nat -> List.length feeRate = 8%nat ->
  ~ In (Buffer_toString_hex mode)
       [AddressHashMode_SerializeP2PKH; AddressHashMode_SerializeP2SH;
        AddressHashMode_SerializeP2WPKH; AddressHashMode_SerializeP2WSH] ->
  SpendingCondition.deserialize_static r
  = Ok (SpendingCondition.mk BaseCondition
          (Some (Buffer_toString_hex mode))
          (Some (Address.fromData 0 (Buffer_toString_hex address)))
          (Some (Z.of_N (be_value nonce)))
          (Some (Z.of_N (be_value feeRate)))
          None MessageSignature.empty None,
        BufferReader.mk (BufferReader.buffer r)
          (BufferReader.index r + 37)).
Proof.
  intros Hle Hrem H1 H2 H3 H4 Hunknown.
  unfold SpendingCondition.deserialize_static.
  rewrite (deserialize_other_mode K _ r mode address nonce feeRate rest);
    try assumption; [reflexivity|].
  unfold SpendingCondition.is_single_key_mode. cbn [option_string_eqb].
  apply orb_false_iff. split; apply String.eqb_neq; intros E;
    apply Hunknown; rewrite E; cbn; tauto.
Qed.

Lemma deserialize_unknown_mode_reads_header_witness :
  SpendingCondition.deserialize_static
    (K:=stacks_constants) (X:=demo_collaborators)
    (BufferReader.new unknown_mode_buffer)
  = Ok (SpendingCondition.mk BaseCondition (Some "ff")
          (Some (Address.fromData 0 (Buffer_toString_hex (repeat x01 20))))
          (Some 72340172838076673%Z) (Some 72340172838076673%Z)
          None MessageSignature.empty None,
        BufferReader.mk unknown_mode_buffer 37).
Proof.
  apply (deserialize_unknown_mode_reads_header
           stacks_constants demo_collaborators
           (BufferReader.new unknown_mode_buffer)
           [xff] (repeat x01 20) (repeat x01 8) (repeat x01 8)
           (repeat x01 3)); try reflexivity.
  - cbn. lia.
  - cbn. intros [H|[H|[H|[H|[]]]]]; discriminate H.
Defined.

(** ** The unfinished paths *)

Lemma Authorization_serialize_errors (K : Constants) (a : Authorization.t)
    (e : error) :
  Authorization.serialize a = Err e -> e = TypeError.
Proof.
  unfold Authorization.serialize.
  destruct (Authorization.authType a) as [ty|]; cbn; [|congruence].
  destruct (String.eqb ty AuthType_Standard).
  - destruct (Authorization.spendingCondition a) as [c|]; cbn; [|congruence].
    destruct (SpendingCondition.serialize c) eqn:E; cbn; [congruence|].
    apply serialize_errors in E. congruence.
  - destruct (String.eqb ty AuthType_Sponsored); congruence.
Qed.

Lemma header_length (m d : string) (n f : Z) :
  hex_of_width 1 m -> hex_of_width 20 d -> u64 n -> u64 f ->
  byteLength (header m d n f) = 37%nat.
Proof.
  intros [_ Hm] [_ Hd] Hn Hf. unfold header, byteLength in *.
  rewrite !bigIntToHexString_u64, !from_hex_toString by assumption.
  rewrite !length_app, !length_u64_be, Hm, Hd. reflexivity.
Qed.

(** C5, as the claim states it, fails: serializing a P2SH condition returns
    the 37 bytes of the header, and serializing a Sponsored authorization
    returns the single authType byte; neither raises an error. *)
Lemma unfinished_paths_return_short_encodings :
  SpendingCondition.serialize (K:=stacks_constants) demo_threshold_condition
  = Ok (header "01" demo_address 0 180)
  /\ byteLength (header "01" demo_address 0 180) = 37%nat
  /\ Authorization.serialize (K:=stacks_constants)
       (Authorization.SponsoredAuthorization (K:=stacks_constants)
          demo_condition)
     = Ok [x05].
Proof. repeat split; vm_compute; reflexivity. Qed.

(** C5, amended.  Serializing a spending condition whose mode is P2SH or
    P2WSH reaches the unfinished branch exactly when its signer address,
    nonce and fee rate are defined (with one of them undefined the call
    throws [TypeError] before the branch); it then raises no error and
    returns the header only (mode, signer address, nonce, fee rate: 37 bytes
    for fields of wire width).  Serializing an authorization whose authType
    is Sponsored returns the authType byte only.  No call of either
    [serialize] raises [Unimplemented]. *)
Theorem unfinished_paths_serialize_prefix (K : Constants) :
  Constants_ok K = true ->
  (forall c m a n f,
     SpendingCondition.addressHashMode c = Some m ->
     SpendingCondition.is_threshold_mode (Some m) = true ->
     SpendingCondition.signerAddress c = Some a ->
     SpendingCondition.nonce c = Some n ->
     SpendingCondition.feeRate c = Some f ->
     SpendingCondition.serialize c = Ok (header m (Address.data a) n f)
     /\ (hex_of_width 20 (Address.data a) -> u64 n -> u64 f ->
         byteLength (header m (Address.data a) n f) = 37%nat))
  /\ (forall c m,
        SpendingCondition.addressHashMode c = Some m ->
        SpendingCondition.is_threshold_mode (Some m) = true ->
        (SpendingCondition.serialize c = Err TypeError
         <-> (SpendingCondition.signerAddress c = None
              \/ SpendingCondition.nonce c = None
              \/ SpendingCondition.feeRate c = None)))
  /\ (forall a,
        Authorization.authType a = Some AuthType_Sponsored ->
        Authorization.serialize a = Ok (Buffer_from_hex AuthType_Sponsored)
        /\ byteLength (Buffer_from_hex AuthType_Sponsored) = 1%nat)
  /\ (forall c, SpendingCondition.serialize c <> Err Unimplemented)
  /\ (forall a, Authorization.serialize a <> Err Unimplemented).
Proof.
  intros HK.
  assert (Hbytes : forall x : string,
            In x [AuthType_Sponsored; AddressHashMode_SerializeP2SH;
                  AddressHashMode_SerializeP2WSH] ->
            hex_of_width 1 x).
  { unfold Constants_ok in HK. cbn [forallb] in HK. split_bools.
    intros x [<-|[<-|[<-|[]]]]; now apply one_byte_hex_spec. }
  split; [|split; [|split; [|split]]].
  - intros c m a n f Hm Hmode Ha Hn Hf. split.
    + apply serialize_other_mode; try assumption.
      now apply Constants_ok_threshold.
    + intros Hd Hnr Hfr. apply header_length; try assumption.
      apply Hbytes.
      unfold SpendingCondition.is_threshold_mode in Hmode.
      cbn [option_string_eqb] in Hmode.
      apply orb_true_iff in Hmode as [E|E]; apply String.eqb_eq in E;
        subst m; cbn; tauto.
  - intros c m Hm Hmode.
    pose proof (Constants_ok_threshold K (Some m) HK Hmode) as Hsingle.
    unfold SpendingCondition.serialize. rewrite Hm, Hsingle, Hmode.
    cbn [defined bind].
    destruct (SpendingCondition.signerAddress c) as [a|];
      cbn [defined bind]; [|tauto].
    destruct (SpendingCondition.nonce c) as [n|];
      cbn [defined bind]; [|tauto].
    destruct (SpendingCondition.feeRate c) as [f|];
      cbn [defined bind]; [|tauto].
    split; [discriminate|]. intros [H|[H|H]]; discriminate H.
  - intros a Ha. split.
    + unfold Authorization.serialize. rewrite Ha. cbn [defined bind].
      rewrite (Constants_ok_sponsored K HK), String.eqb_refl.
      cbn. now rewrite app_nil_r.
    + apply Hbytes. cbn. tauto.
  - intros c E. apply serialize_errors in E. discriminate E.
  - intros a E. apply Authorization_serialize_errors in E. discriminate E.
Qed.

Lemma unfinished_paths_serialize_prefix_witness :
  SpendingCondition.serialize (K:=stacks_constants) demo_threshold_condition
  = Ok (header "01" demo_address 0 180).
Proof.
  apply (proj1 (unfinished_paths_serialize_prefix stacks_constants eq_refl)
           demo_threshold_condition "01" (Address.mk 0 demo_address) 0%Z 180%Z);
    reflexivity.
Defined.

(** ** The signing session *)

Section Signer.
Context {X : Collaborators}.
Variable signNextOrigin :
  string -> StacksPrivateKey -> StacksTransaction.t ->
  result string * StacksTransaction.t.

Local Abbreviation signOrigin :=
  (TransactionSigner.signOrigin signNextOrigin).

(** [signOrigin] writes [transaction] and [sigHash] only. *)
Lemma signOrigin_flags (k : StacksPrivateKey) (s : TransactionSigner.t) :
  TransactionSigner.originDone (snd (signOrigin k s))
  = TransactionSigner.originDone s
  /\ TransactionSigner.checkOversign (snd (signOrigin k s))
     = TransactionSigner.checkOversign s
  /\ TransactionSigner.checkOverlap (snd (signOrigin k s))
     = TransactionSigner.checkOverlap s.
Proof.
  unfold TransactionSigner.signOrigin, TransactionSigner.signOrigin_unguarded.
  destruct (TransactionSigner.overlap_guard s); [now repeat split|].
  destruct (TransactionSigner.oversign_guard s) as [[|]|];
    try now repeat split.
  destruct (signNextOrigin _ _ _) as [[h|e] tx]; now repeat split.
Qed.

Lemma signOrigin_oversigned (s : TransactionSigner.t)
    (k : StacksPrivateKey) (c : SpendingCondition.t) (required : Z) :
  TransactionSigner.checkOversign s = true ->
  TransactionSigner.overlap_guard s = false ->
  origin s = Some c ->
  SpendingCondition.signaturesRequired c = Some required ->
  (SpendingCondition.numSignatures c >= required)%Z ->
  signOrigin k s = (Err OversignError, s).
Proof.
  intros Hcheck Hoverlap Hc Hreq Hge.
  unfold TransactionSigner.signOrigin, TransactionSigner.signOrigin_unguarded,
    TransactionSigner.oversign_guard.
  unfold origin in Hc. rewrite Hoverlap, Hcheck, Hc. cbn [defined bind].
  rewrite Hreq. cbn [js_ge].
  destruct (Z.leb_spec required (SpendingCondition.numSignatures c));
    [reflexivity | lia].
Qed.

Lemma signOrigin_success (s s' : TransactionSigner.t)
    (k : StacksPrivateKey) :
  signOrigin k s = (Ok tt, s') ->
  exists h,
    signNextOrigin (TransactionSigner.sigHash s) k
      (TransactionSigner.transaction s)
    = (Ok h, TransactionSigner.transaction s')
    /\ TransactionSigner.sigHash s' = h.
Proof.
  unfold TransactionSigner.signOrigin, TransactionSigner.signOrigin_unguarded.
  destruct (TransactionSigner.overlap_guard s); [discriminate|].
  destruct (TransactionSigner.oversign_guard s) as [[|]|];
    try discriminate.
  destruct (signNextOrigin _ _ _) as [[h|e] tx]; [|discriminate].
  intros [= <-]. exists h. split; reflexivity.
Qed.
End Signer.

Lemma signNextOrigin_fills_slot (K : Constants) (X : Collaborators) :
  (forall k h,
     MessageSignature.signature (sign k h)
     <> MessageSignature.signature MessageSignature.empty) ->
  fills_single_slot StacksTransaction.signNextOrigin.
Proof.
  intros Hsign h k tx h' tx' c Hstep Hc Hclass.
  unfold StacksTransaction.signNextOrigin in Hstep. rewrite Hc in Hstep.
  cbn [defined bind] in Hstep.
  destruct (Authorization.authType (StacksTransaction.auth tx)) as [ty|];
    [|discriminate]. cbn [defined bind] in Hstep.
  destruct (SpendingCondition.feeRate c) as [f|]; [|discriminate].
  destruct (SpendingCondition.nonce c) as [n|]; [|discriminate].
  cbn [defined bind] in Hstep.
  unfold SpendingCondition.nextSignature in Hstep.
  destruct (SpendingCondition.makeSigHashPreSign h ty f n) as [pre|];
    [|discriminate]. cbn [bind] in Hstep.
  destruct (SpendingCondition.makeSigHashPostSign pre _ _) as [post|];
    [|discriminate]. cbn [bind] in Hstep.
  injection Hstep as _ <-.
  exists (SpendingCondition.with_signature (sign k pre) c).
  repeat split; try assumption.
  unfold SpendingCondition.numSignatures,
    SpendingCondition.SingleSig_numSignatures, MessageSignature.toString.
  cbn [SpendingCondition.with_signature SpendingCondition.class
       SpendingCondition.signature].
  rewrite Hclass. specialize (Hsign k pre).
  destruct (MessageSignature.signature (sign k pre)) as [x|],
           (MessageSignature.signature MessageSignature.empty) as [y|];
    cbn [option_string_eqb]; try reflexivity; try congruence.
  destruct (String.eqb_spec x y); [congruence | reflexivity].
Qed.

Lemma demo_sign_not_empty (k h : string) :
  MessageSignature.signature (sign (Collaborators:=demo_collaborators) k h)
  <> MessageSignature.signature MessageSignature.empty.
Proof. cbn. discriminate. Qed.

(** C6, as the claim states it, fails when the overlap guard fires first:
    this signer has [checkOversign] set and a fully signed origin, and
    [signOrigin] fails with the overlap error. *)
Lemma signOrigin_overlap_error_comes_first :
  TransactionSigner.checkOversign demo_signer_origin_done = true
  /\ (exists c,
        origin demo_signer_origin_done = Some c
        /\ SpendingCondition.signaturesRequired c = Some 1%Z
        /\ SpendingCondition.numSignatures c = 1%Z)
  /\ TransactionSigner.signOrigin demo_signNextOrigin demo_key
       demo_signer_origin_done
     = (Err OverlapError, demo_signer_origin_done).
Proof.
  split; [reflexivity|]. split.
  - eexists. split; [vm_compute; reflexivity|]. split; reflexivity.
  - vm_compute. reflexivity.
Qed.

(** C6, amended.  For every signer with [checkOversign] set on which the
    overlap guard does not fire ([checkOverlap] or [originDone] is false)
    and whose origin condition has [numSignatures() >= signaturesRequired],
    [signOrigin] fails with the oversign error and leaves the signer, its
    transaction and its sighash untouched, whatever the chain step would do.
    In particular, when a successful chain step fills the slot of a
    single-signature origin with [signaturesRequired = 1], a second
    [signOrigin] after a successful one fails with the oversign error. *)
Theorem signOrigin_oversign (X : Collaborators)
    (signNextOrigin : string -> StacksPrivateKey -> StacksTransaction.t ->
                      result string * StacksTransaction.t) :
  (forall s k c required,
     TransactionSigner.checkOversign s = true ->
     TransactionSigner.overlap_guard s = false ->
     origin s = Some c ->
     SpendingCondition.signaturesRequired c = Some required ->
     (SpendingCondition.numSignatures c >= required)%Z ->
     TransactionSigner.signOrigin signNextOrigin k s = (Err OversignError, s))
  /\ (fills_single_slot signNextOrigin ->
      forall s k1 k2 s1 c,
        TransactionSigner.checkOversign s = true ->
        TransactionSigner.overlap_guard s = false ->
        origin s = Some c ->
        SpendingCondition.class c = SingleSig ->
        SpendingCondition.signaturesRequired c = Some 1%Z ->
        TransactionSigner.signOrigin signNextOrigin k1 s = (Ok tt, s1) ->
        TransactionSigner.signOrigin signNextOrigin k2 s1
        = (Err OversignError, s1)).
Proof.
  split.
  - intros s k c required. apply signOrigin_oversigned.
  - intros Hfill s k1 k2 s1 c Hcheck Hoverlap Hc Hclass Hreq Hfirst.
    destruct (signOrigin_flags signNextOrigin k1 s) as (Hdone & Hover & Hlap).
    rewrite Hfirst in Hdone, Hover, Hlap. cbn [snd] in Hdone, Hover, Hlap.
    destruct (signOrigin_success signNextOrigin s s1 k1 Hfirst)
      as (h & Hstep & _).
    destruct (Hfill _ _ _ _ _ c Hstep Hc Hclass)
      as (c' & Hc' & _ & Hreq' & Hnum).
    apply (signOrigin_oversigned signNextOrigin s1 k2 c' 1%Z).
    + congruence.
    + unfold TransactionSigner.overlap_guard in *. congruence.
    + exact Hc'.
    + congruence.
    + lia.
Qed.

Lemma signOrigin_oversign_witness :
  TransactionSigner.signOrigin demo_signNextOrigin demo_key demo_signer_signed
  = (Err OversignError, demo_signer_signed).
Proof.
  apply (proj2 (signOrigin_oversign demo_collaborators demo_signNextOrigin)
           (signNextOrigin_fills_slot stacks_constants demo_collaborators
              demo_sign_not_empty)
           demo_signer demo_key demo_key demo_signer_signed demo_condition);
    reflexivity.
Defined.

(** C9.  [originDone] is false at construction and no operation of the
    signer changes it; after any sequence of method calls on a fresh signer
    it is still false, the overlap guard is off, and [signOrigin] behaves as
    its part after that guard: the overlap branch is never taken. *)
Theorem originDone_never_set (X : Collaborators)
    (signBegin : StacksTransaction.t -> string)
    (signNextOrigin : string -> StacksPrivateKey -> StacksTransaction.t ->
                      result string * StacksTransaction.t)
    (inherited_call :
       string -> StacksPrivateKey -> TransactionSigner.t -> result unit)
    (tx : StacksTransaction.t)
    (calls : list (string * StacksPrivateKey)) :
  let fresh := TransactionSigner.new signBegin tx in
  let s := TransactionSigner.run signNextOrigin inherited_call calls fresh in
  TransactionSigner.originDone fresh = false
  /\ (forall method k s0,
        TransactionSigner.originDone
          (snd (TransactionSigner.call signNextOrigin inherited_call method k s0))
        = TransactionSigner.originDone s0)
  /\ TransactionSigner.originDone s = false
  /\ TransactionSigner.overlap_guard s = false
  /\ forall k,
       TransactionSigner.signOrigin signNextOrigin k s
       = TransactionSigner.signOrigin_unguarded signNextOrigin k s.
Proof.
  cbv zeta.
  assert (Hcall : forall method k s0,
    TransactionSigner.originDone
      (snd (TransactionSigner.call signNextOrigin inherited_call method k s0))
    = TransactionSigner.originDone s0).
  { intros method k s0. unfold TransactionSigner.call.
    destruct (String.eqb method "signOrigin"); [|reflexivity].
    apply signOrigin_flags. }
  assert (Hrun : forall s0,
    TransactionSigner.originDone
      (TransactionSigner.run signNextOrigin inherited_call calls s0)
    = TransactionSigner.originDone s0).
  { induction calls as [|[method k] calls IH]; intros s0; [reflexivity|].
    cbn [TransactionSigner.run]. rewrite IH. apply Hcall. }
  assert (Hdone :
    TransactionSigner.originDone
      (TransactionSigner.run signNextOrigin inherited_call calls
         (TransactionSigner.new signBegin tx)) = false)
    by (rewrite Hrun; reflexivity).
  assert (Hguard :
    TransactionSigner.overlap_guard
      (TransactionSigner.run signNextOrigin inherited_call calls
         (TransactionSigner.new signBegin tx)) = false).
  { unfold TransactionSigner.overlap_guard. rewrite Hdone.
    apply andb_false_r. }
  repeat split; try assumption.
  intros k. unfold TransactionSigner.signOrigin. now rewrite Hguard.
Qed.

(** * Further properties of the code *)

(** ** Big-endian values of buffers *)

Lemma be_value_snoc (buf : Buffer) (b : byte) :
  be_value (buf ++ [b])%list = (256 * be_value buf + Byte.to_N b)%N.
Proof. unfold be_value. now rewrite fold_left_app. Qed.

Lemma be_value_bound (buf : Buffer) :
  (be_value buf < 256 ^ N.of_nat (List.length buf))%N.
Proof.
  induction buf as [|b buf IH] using rev_ind; [reflexivity|].
  rewrite be_value_snoc, length_app, Nat.add_comm.
  cbn [List.length Nat.add]. rewrite Nat2N.inj_succ, N.pow_succ_r'.
  pose proof (Byte.to_N_bounded b). lia.
Qed.

Lemma be_bytes_acc_be_value (buf : Buffer) : forall acc,
  be_bytes_acc (List.length buf) (be_value buf) acc = (buf ++ acc)%list.
Proof.
  induction buf as [|b buf IH] using rev_ind; intros acc; [reflexivity|].
  rewrite be_value_snoc, length_app, Nat.add_comm.
  cbn [List.length Nat.add be_bytes_acc].
  pose proof (Byte.to_N_bounded b) as Hb.
  replace ((256 * be_value buf + Byte.to_N b) / 256)%N
    with (be_value buf) by lia.
  replace ((256 * be_value buf + Byte.to_N b) mod 256)%N
    with (Byte.to_N b) by lia.
  unfold byte_of_N at 1. rewrite Byte.of_to_N.
  rewrite IH, <- app_assoc. reflexivity.
Qed.

(** Eight bytes are the text that [bigIntToHexString] writes for their
    big-endian value. *)
Lemma bigIntToHexString_be_value (buf : Buffer) :
  List.length buf = 8%nat ->
  u64 (Z.of_N (be_value buf))
  /\ bigIntToHexString (Z.of_N (be_value buf)) 8 = Buffer_toString_hex buf.
Proof.
  intros Hlen.
  assert (Hu : u64 (Z.of_N (be_value buf))).
  { pose proof (be_value_bound buf) as Hb. rewrite Hlen in Hb.
    change (256 ^ N.of_nat 8)%N with (Z.to_N (2 ^ 64)) in Hb.
    unfold u64. lia. }
  split; [exact Hu|].
  rewrite bigIntToHexString_u64 by exact Hu.
  unfold u64_be, be_bytes. rewrite N2Z.id, <- Hlen.
  now rewrite be_bytes_acc_be_value, app_nil_r.
Qed.

(** ** What a successful read says *)

Lemma read_Ok (n : nat) (r r' : BufferReader.t) (b : Buffer) :
  BufferReader.read n r = Ok (b, r') ->
  b = firstn n (remaining r)
  /\ List.length b = n
  /\ BufferReader.buffer r' = BufferReader.buffer r
  /\ BufferReader.index r' = (BufferReader.index r + n)%nat
  /\ (BufferReader.index r' <= List.length (BufferReader.buffer r'))%nat
  /\ remaining r' = skipn n (remaining r).
Proof.
  unfold BufferReader.read, remaining.
  destruct (Nat.leb_spec (BufferReader.index r + n)
              (List.length (BufferReader.buffer r))) as [Hle|]; [|discriminate].
  intros H. apply Ok_inj in H. injection H as <- <-.
  cbn [BufferReader.buffer BufferReader.index].
  repeat split; try assumption.
  - rewrite length_firstn, length_skipn. lia.
  - now rewrite skipn_skipn, Nat.add_comm.
Qed.

Lemma firstn_add {A : Type} (n m : nat) : forall l : list A,
  firstn (n + m) l = (firstn n l ++ firstn m (skipn n l))%list.
Proof.
  induction n as [|n IH]; intros l; [reflexivity|].
  destruct l as [|x l]; cbn.
  - now rewrite firstn_nil.
  - now rewrite IH.
Qed.

(** ** The sighash chain *)

Lemma preSignMaterial_bytes (curHash : Buffer) (authType : byte)
    (feeRate nonce : Z) :
  u64 feeRate -> u64 nonce ->
  SpendingCondition.preSignMaterial (Buffer_toString_hex curHash)
    (Buffer_toString_hex [authType]) feeRate nonce
  = Buffer_toString_hex
      (curHash ++ [authType] ++ u64_be feeRate ++ u64_be nonce)%list.
Proof.
  intros Hf Hn. unfold SpendingCondition.preSignMaterial.
  rewrite !bigIntToHexString_u64 by assumption.
  now rewrite !toString_hex_app.
Qed.

(** X1.  With a fee rate and a nonce that fit 64 bits, the outcome of
    [makeSigHashPreSign] is decided by the length of the current sighash
    alone: more than 32 bytes is the length error, anything up to 32 bytes
    (an empty hash included) is hashed together with the 17 bytes that
    follow. *)
Theorem makeSigHashPreSign_by_hash_length (X : Collaborators)
    (curHash : Buffer) (authType : byte) (feeRate nonce : Z) :
  u64 feeRate -> u64 nonce ->
  let call :=
    SpendingCondition.makeSigHashPreSign (Buffer_toString_hex curHash)
      (Buffer_toString_hex [authType]) feeRate nonce in
  let material :=
    (curHash ++ [authType] ++ u64_be feeRate ++ u64_be nonce)%list in
  byteLength material = (List.length curHash + 17)%nat
  /\ ((32 < List.length curHash)%nat -> call = Err EncodingLengthError)
  /\ ((List.length curHash <= 32)%nat ->
      call = Ok (sha512_256 (Buffer_toString_hex material))).
Proof.
  intros Hf Hn call material.
  assert (Hlen : byteLength material = (List.length curHash + 17)%nat).
  { unfold material, byteLength.
    rewrite !length_app, !length_u64_be. reflexivity. }
  destruct (makeSigHashPreSign_guard X (Buffer_toString_hex curHash)
              (Buffer_toString_hex [authType]) feeRate nonce) as [Hthrow Hok].
  rewrite preSignMaterial_bytes in Hthrow, Hok by assumption.
  fold material in Hthrow, Hok. rewrite from_hex_toString, Hlen in Hthrow, Hok.
  split; [exact Hlen|]. split; intros H.
  - apply Hthrow. lia.
  - apply Hok. lia.
Qed.

Lemma makeSigHashPreSign_by_hash_length_witness :
  SpendingCondition.makeSigHashPreSign (X:=demo_collaborators)
    "" "04" 180 0
  = Ok (demo_hash "0400000000000000b40000000000000000").
Proof.
  apply (proj2 (proj2 (makeSigHashPreSign_by_hash_length demo_collaborators
                         [] x04 180 0 ltac:(unfold u64; lia)
                         ltac:(unfold u64; lia)))).
  cbn. lia.
Defined.

Lemma Constants_ok_encoding (K : Constants) (b : bool) :
  Constants_ok K = true ->
  hex_of_width 1
    (if b then PubKeyEncoding_Compressed else PubKeyEncoding_Uncompressed).
Proof.
  unfold Constants_ok. cbn [forallb]. intros HK. split_bools.
  destruct b; now apply one_byte_hex_spec.
Qed.

Lemma makeSigHashPostSign_guard (K : Constants) (X : Collaborators)
    (curSigHash : string) (publicKey : StacksPublicKey)
    (signature : MessageSignature.t) :
  let material :=
    curSigHash
    ++ (if compressed publicKey
        then PubKeyEncoding_Compressed else PubKeyEncoding_Uncompressed)
    ++ String_of (MessageSignature.toString signature) in
  ((98 < byteLength (Buffer_from_hex material))%nat ->
   SpendingCondition.makeSigHashPostSign curSigHash publicKey signature
   = Err EncodingLengthError)
  /\ ((byteLength (Buffer_from_hex material) <= 98)%nat ->
      SpendingCondition.makeSigHashPostSign curSigHash publicKey signature
      = Ok (sha512_256 material)).
Proof.
  cbv zeta. unfold SpendingCondition.makeSigHashPostSign.
  change (32 + 1 + RECOVERABLE_ECDSA_SIG_LENGTH_BYTES)%nat with 98%nat.
  destruct (Nat.ltb_spec 98 (byteLength (Buffer_from_hex
    (curSigHash
     ++ (if compressed publicKey
         then PubKeyEncoding_Compressed else PubKeyEncoding_Uncompressed)
     ++ String_of (MessageSignature.toString signature))))) as [H|H].
  - split; [reflexivity | lia].
  - split; [lia | reflexivity].
Qed.

Lemma postSign_material_bytes (K : Constants) (X : Collaborators)
    (preHash : Buffer) (publicKey : StacksPublicKey) (sigText : string) :
  Constants_ok K = true ->
  let encoding :=
    if compressed publicKey
    then PubKeyEncoding_Compressed else PubKeyEncoding_Uncompressed in
  let material := Buffer_toString_hex preHash ++ encoding ++ sigText in
  let call :=
    SpendingCondition.makeSigHashPostSign (Buffer_toString_hex preHash)
      publicKey (MessageSignature.mk (Some sigText)) in
  let size :=
    (List.length preHash + 1 + byteLength (Buffer_from_hex sigText))%nat in
  Buffer_from_hex material
  = (preHash ++ Buffer_from_hex encoding ++ Buffer_from_hex sigText)%list
  /\ byteLength (Buffer_from_hex material) = size
  /\ ((size <= 98)%nat -> call = Ok (sha512_256 material))
  /\ ((98 < size)%nat -> call = Err EncodingLengthError).
Proof.
  intros HK encoding material call size.
  destruct (Constants_ok_encoding K (compressed publicKey) HK) as [Hc Hl].
  fold encoding in Hc, Hl.
  assert (Hbytes : Buffer_from_hex material
    = (preHash ++ Buffer_from_hex encoding ++ Buffer_from_hex sigText)%list).
  { unfold material. rewrite from_hex_toString_app.
    now rewrite canonical_from_hex_app by exact Hc. }
  assert (Hsize : byteLength (Buffer_from_hex material) = size).
  { rewrite Hbytes. unfold size, byteLength in *.
    rewrite !length_app, Hl. cbn [Nat.add]. lia. }
  destruct (makeSigHashPostSign_guard K X (Buffer_toString_hex preHash)
              publicKey (MessageSignature.mk (Some sigText))) as [Hthrow Hok].
  cbn [MessageSignature.toString MessageSignature.signature String_of]
    in Hthrow, Hok.
  fold encoding in Hthrow, Hok. fold material in Hthrow, Hok.
  rewrite Hsize in Hthrow, Hok.
  repeat split; assumption.
Qed.

(** X2.  The post-sign material is the pre-sign hash, then the one byte of
    the key encoding (compressed or not, as the public key says), then the
    bytes of the signature text.  [makeSigHashPostSign] hashes it when it is
    at most 98 bytes long, as for a 32-byte hash and a 65-byte signature,
    and throws the length error when it is longer; shorter material is
    hashed as well. *)
Theorem makeSigHashPostSign_material (K : Constants) (X : Collaborators)
    (preHash : Buffer) (publicKey : StacksPublicKey) (sigText : string) :
  Constants_ok K = true ->
  let encoding :=
    if compressed publicKey
    then PubKeyEncoding_Compressed else PubKeyEncoding_Uncompressed in
  let material := Buffer_toString_hex preHash ++ encoding ++ sigText in
  let call :=
    SpendingCondition.makeSigHashPostSign (Buffer_toString_hex preHash)
      publicKey (MessageSignature.mk (Some sigText)) in
  let size :=
    (List.length preHash + 1 + byteLength (Buffer_from_hex sigText))%nat in
  Buffer_from_hex material
  = (preHash ++ Buffer_from_hex encoding ++ Buffer_from_hex sigText)%list
  /\ byteLength (Buffer_from_hex material) = size
  /\ ((size <= 98)%nat -> call = Ok (sha512_256 material))
  /\ ((98 < size)%nat -> call = Err EncodingLengthError).
Proof. exact (postSign_material_bytes K X preHash publicKey sigText). Qed.

Lemma makeSigHashPostSign_material_witness :
  SpendingCondition.makeSigHashPostSign
    (K:=stacks_constants) (X:=demo_collaborators)
    H0 ("02" ++ demo_key) (MessageSignature.mk (Some ("01" ++ H0 ++ H0)))
  = Ok (demo_hash (H0 ++ "00" ++ "01" ++ H0 ++ H0)).
Proof.
  apply (proj1 (proj2 (proj2 (makeSigHashPostSign_material
                  stacks_constants demo_collaborators
                  (repeat x2a 32) ("02" ++ demo_key) ("01" ++ H0 ++ H0)
                  eq_refl)))).
  apply Nat.leb_le. vm_compute. reflexivity.
Defined.

(** Errors of [nextSignature]: only the length error of the two hashes. *)
Lemma nextSignature_errors (K : Constants) (X : Collaborators)
    (curSigHash authType : string) (feeRate nonce : Z)
    (privateKey : StacksPrivateKey) (e : error) :
  SpendingCondition.nextSignature curSigHash authType feeRate nonce privateKey
  = Err e ->
  e = EncodingLengthError.
Proof.
  unfold SpendingCondition.nextSignature, SpendingCondition.makeSigHashPreSign,
    SpendingCondition.makeSigHashPostSign.
  destruct (_ <? _)%nat; cbn [bind]; [congruence|].
  destruct (_ <? _)%nat; cbn [bind]; congruence.
Qed.

(** X3.  One signing step.  When the hash primitive returns 32 bytes of
    lower-case hex and the signing primitive returns a 65-byte signature
    for such a hash, [nextSignature] on a current sighash of at most 32
    bytes and a fee rate and nonce within 64 bits does not throw: the
    signature it returns is the private key's signature of the pre-sign
    hash (not of the current sighash), and the next sighash is the hash of
    that pre-sign hash, the key-encoding byte and that signature.  Whatever
    the inputs, the only error [nextSignature] raises is the length
    error. *)
Theorem nextSignature_signs_presign_hash (K : Constants) (X : Collaborators)
    (curHash : Buffer) (authType : byte) (feeRate nonce : Z)
    (privateKey : StacksPrivateKey) :
  Constants_ok K = true ->
  (forall m, hex_of_width 32 (sha512_256 m)) ->
  (forall k h, hex_of_width 32 h ->
     exists s, sign k h = MessageSignature.mk (Some s)
               /\ byteLength (Buffer_from_hex s) = 65%nat) ->
  (List.length curHash <= 32)%nat -> u64 feeRate -> u64 nonce ->
  let preSign :=
    sha512_256 (Buffer_toString_hex
      (curHash ++ [authType] ++ u64_be feeRate ++ u64_be nonce)%list) in
  let signature := sign privateKey preSign in
  let encoding :=
    if compressed (getPublicKey privateKey)
    then PubKeyEncoding_Compressed else PubKeyEncoding_Uncompressed in
  SpendingCondition.nextSignature (Buffer_toString_hex curHash)
    (Buffer_toString_hex [authType]) feeRate nonce privateKey
  = Ok (signature,
        sha512_256
          (preSign ++ encoding
           ++ String_of (MessageSignature.toString signature)))
  /\ forall cur ty f n k e,
       SpendingCondition.nextSignature cur ty f n k = Err e ->
       e = EncodingLengthError.
Proof.
  intros HK Hsha Hsign Hcur Hf Hn preSign signature encoding.
  split; [|intros cur ty f n k e; apply nextSignature_errors].
  unfold SpendingCondition.nextSignature.
  destruct (makeSigHashPreSign_guard X (Buffer_toString_hex curHash)
              (Buffer_toString_hex [authType]) feeRate nonce) as [_ Hok].
  rewrite preSignMaterial_bytes in Hok by assumption.
  rewrite Hok; cbn [bind].
  2:{ rewrite from_hex_toString. unfold byteLength.
      rewrite !length_app, !length_u64_be. cbn [List.length]. lia. }
  fold preSign. fold signature.
  destruct (Hsha (Buffer_toString_hex
      (curHash ++ [authType] ++ u64_be feeRate ++ u64_be nonce)%list))
    as [Hpc Hpl].
  fold preSign in Hpc, Hpl.
  destruct (Hsign privateKey preSign (conj Hpc Hpl)) as (s & Hs & Hsl).
  fold signature in Hs. rewrite Hs.
  destruct (postSign_material_bytes K X (Buffer_from_hex preSign)
              (getPublicKey privateKey) s HK) as (_ & _ & Hpost & _).
  rewrite Hpc in Hpost. rewrite Hpost; [reflexivity|].
  unfold byteLength in *. rewrite Hpl, Hsl. lia.
Qed.

Lemma demo_sign_width (k h : string) :
  hex_of_width 32 h ->
  exists s,
    sign (Collaborators:=demo_collaborators) k h = MessageSignature.mk (Some s)
    /\ byteLength (Buffer_from_hex s) = 65%nat.
Proof.
  intros [Hc Hl]. exists ("01" ++ h ++ h). split; [reflexivity|].
  change "01" with (Buffer_toString_hex [x01]).
  rewrite from_hex_toString_app, canonical_from_hex_app by exact Hc.
  unfold byteLength in *. cbn [app List.length].
  rewrite length_app, Hl. reflexivity.
Qed.

Lemma demo_hash_width (m : string) : hex_of_width 32 (demo_hash m).
Proof.
  split; [apply canonical_toString | apply demo_hash_length].
Qed.

Lemma nextSignature_signs_presign_hash_witness :
  SpendingCondition.nextSignature
    (K:=stacks_constants) (X:=demo_collaborators) H0 "04" 180 0 demo_key
  = Ok (MessageSignature.mk (Some ("01" ++ H0 ++ H0)),
        demo_hash (H0 ++ "00" ++ "01" ++ H0 ++ H0)).
Proof.
  apply (proj1 (nextSignature_signs_presign_hash
                  stacks_constants demo_collaborators
                  (repeat x2a 32) x04 180 0 demo_key
                  eq_refl demo_hash_width demo_sign_width
                  ltac:(cbn; lia) ltac:(unfold u64; lia)
                  ltac:(unfold u64; lia))).
Defined.

(** ** Signature values on the wire *)

(** X4.  A signature object that the constructor accepted from a non-empty
    argument serializes to exactly 65 bytes, the bytes its text writes.  One
    made without an argument cannot be serialized (the runtime's
    [TypeError]), and one made from the empty string serializes to no bytes
    at all. *)
Theorem MessageSignature_new_then_serialize (arg : option string)
    (m : MessageSignature.t) :
  MessageSignature.new arg = Ok m ->
  (forall s, arg = Some s -> s <> "" ->
     MessageSignature.serialize m = Ok (Buffer_from_hex s)
     /\ byteLength (Buffer_from_hex s) = 65%nat)
  /\ (arg = None -> MessageSignature.serialize m = Err TypeError)
  /\ (arg = Some "" -> MessageSignature.serialize m = Ok []).
Proof.
  intros Hnew. repeat split.
  - subst arg. unfold MessageSignature.new in Hnew.
    destruct s as [|c s]; [contradiction|]. cbn [truthy String_of] in Hnew.
    destruct (negb _); [discriminate|]. apply Ok_inj in Hnew. subst m.
    unfold MessageSignature.serialize, BufferArray.concatBuffer,
      BufferArray.appendHexString.
    cbn. now rewrite app_nil_r.
  - subst arg. unfold MessageSignature.new in Hnew.
    destruct s as [|c s]; [contradiction|]. cbn [truthy String_of] in Hnew.
    unfold RECOVERABLE_ECDSA_SIG_LENGTH_BYTES in Hnew.
    destruct (Nat.eqb_spec (byteLength (Buffer_from_hex (String c s))) 65);
      [assumption | discriminate].
  - intros ->. apply Ok_inj in Hnew. now subst m.
  - intros ->. apply Ok_inj in Hnew. now subst m.
Qed.

Lemma MessageSignature_new_then_serialize_witness :
  MessageSignature.serialize (MessageSignature.mk (Some ("01" ++ H0 ++ H0)))
  = Ok (Buffer_from_hex ("01" ++ H0 ++ H0)).
Proof.
  apply (proj1 (MessageSignature_new_then_serialize
                  (Some ("01" ++ H0 ++ H0)) _ eq_refl)
           ("01" ++ H0 ++ H0) eq_refl).
  discriminate.
Defined.

(** X5.  Encode, then decode.  For a signature of 65 bytes written in
    lower-case hex, [serialize] gives its 65 bytes, and
    [MessageSignature.deserialize] on a reader that stands before these
    bytes gives the same signature back and moves the reader 65 bytes on,
    whatever follows them. *)
Theorem MessageSignature_roundtrip (s : string) (r : BufferReader.t)
    (rest : Buffer) :
  hex_of_width 65 s ->
  (BufferReader.index r <= List.length (BufferReader.buffer r))%nat ->
  remaining r = (Buffer_from_hex s ++ rest)%list ->
  MessageSignature.serialize (MessageSignature.mk (Some s))
  = Ok (Buffer_from_hex s)
  /\ MessageSignature.deserialize_static r
     = Ok (MessageSignature.mk (Some s),
           BufferReader.mk (BufferReader.buffer r)
             (BufferReader.index r + 65)).
Proof.
  intros [Hc Hl] Hle Hrem. split.
  - unfold MessageSignature.serialize, BufferArray.concatBuffer,
      BufferArray.appendHexString.
    cbn. now rewrite app_nil_r.
  - unfold MessageSignature.deserialize_static, MessageSignature.deserialize.
    cbn [MessageSignature.new truthy bind].
    unfold RECOVERABLE_ECDSA_SIG_LENGTH_BYTES.
    read_step r (Buffer_from_hex s) Hl.
    rewrite Hc. do 2 f_equal. now apply reader_eq.
Qed.

Lemma MessageSignature_roundtrip_witness :
  MessageSignature.deserialize_static
    (BufferReader.new (repeat x00 65 ++ [xff])%list)
  = Ok (MessageSignature.empty,
        BufferReader.mk (repeat x00 65 ++ [xff])%list 65).
Proof.
  apply (proj2 (MessageSignature_roundtrip (zeros 130)
                  (BufferReader.new (repeat x00 65 ++ [xff])%list) [xff]
                  (conj eq_refl eq_refl) ltac:(cbn; lia) eq_refl)).
Defined.

(** X6.  Decode, then encode.  Whenever [MessageSignature.deserialize]
    returns, it has consumed exactly 65 bytes, the signature it built passes
    the constructor's length check, and serializing it gives back the 65
    bytes that were read. *)
Theorem MessageSignature_decode_encode (r r' : BufferReader.t)
    (m : MessageSignature.t) :
  MessageSignature.deserialize_static r = Ok (m, r') ->
  BufferReader.index r' = (BufferReader.index r + 65)%nat
  /\ BufferReader.buffer r' = BufferReader.buffer r
  /\ MessageSignature.serialize m = Ok (firstn 65 (remaining r))
  /\ MessageSignature.new (MessageSignature.signature m) = Ok m.
Proof.
  unfold MessageSignature.deserialize_static, MessageSignature.deserialize.
  cbn [MessageSignature.new truthy bind].
  unfold RECOVERABLE_ECDSA_SIG_LENGTH_BYTES.
  destruct (BufferReader.read 65 r) as [[b r1]|] eqn:E; [|discriminate].
  cbn [bind]. intros H. apply Ok_inj in H. injection H as <- <-.
  destruct (read_Ok _ _ _ _ E) as (Hb & Hlen & Hbuf & Hidx & _ & _).
  repeat split; try assumption.
  - unfold MessageSignature.serialize, BufferArray.concatBuffer,
      BufferArray.appendHexString.
    cbn. rewrite from_hex_toString, app_nil_r. now rewrite Hb.
  - unfold MessageSignature.new.
    cbn [MessageSignature.signature String_of].
    rewrite from_hex_toString. unfold byteLength.
    rewrite Hlen. unfold RECOVERABLE_ECDSA_SIG_LENGTH_BYTES.
    cbn [Nat.eqb negb].
    destruct (truthy _); reflexivity.
Qed.

Lemma MessageSignature_decode_encode_witness :
  MessageSignature.serialize MessageSignature.empty
  = Ok (firstn 65 (repeat x00 65 ++ [xff])%list).
Proof.
  apply (MessageSignature_decode_encode
           (BufferReader.new (repeat x00 65 ++ [xff])%list)
           (BufferReader.mk (repeat x00 65 ++ [xff])%list 65)
           MessageSignature.empty eq_refl).
Defined.

(** ** Spending conditions on the wire *)

Lemma firstn_app_exact {A : Type} (a l : list A) (n : nat) :
  List.length a = n -> firstn n (a ++ l) = a.
Proof.
  intros <-. rewrite firstn_app, firstn_all, Nat.sub_diag.
  cbn. apply app_nil_r.
Qed.

Lemma skipn_app_exact {A : Type} (a l : list A) (n : nat) :
  List.length a = n -> skipn n (a ++ l) = l.
Proof.
  intros <-. rewrite skipn_app, skipn_all, Nat.sub_diag. reflexivity.
Qed.

(** What a successful [deserialize] has read and stored. *)
Lemma deserialize_Ok (K : Constants) (this c : SpendingCondition.t)
    (r r' : BufferReader.t) :
  SpendingCondition.deserialize this r = Ok (c, r') ->
  exists b1 b2 b3 b4,
    List.length b1 = 1%nat /\ List.length b2 = 20%nat
    /\ List.length b3 = 8%nat /\ List.length b4 = 8%nat
    /\ firstn 37 (remaining r) = (b1 ++ b2 ++ b3 ++ b4)%list
    /\ BufferReader.buffer r' = BufferReader.buffer r
    /\ SpendingCondition.class c = SpendingCondition.class this
    /\ SpendingCondition.signaturesRequired c
       = SpendingCondition.signaturesRequired this
    /\ SpendingCondition.addressHashMode c = Some (Buffer_toString_hex b1)
    /\ SpendingCondition.signerAddress c
       = Some (Address.mk 0 (Buffer_toString_hex b2))
    /\ SpendingCondition.nonce c = Some (Z.of_N (be_value b3))
    /\ SpendingCondition.feeRate c = Some (Z.of_N (be_value b4))
    /\ ((SpendingCondition.is_single_key_mode
           (Some (Buffer_toString_hex b1)) = true
         /\ BufferReader.index r' = (BufferReader.index r + 103)%nat
         /\ exists b5 b6,
              List.length b5 = 1%nat /\ List.length b6 = 65%nat
              /\ firstn 103 (remaining r)
                 = (b1 ++ b2 ++ b3 ++ b4 ++ b5 ++ b6)%list
              /\ SpendingCondition.pubKeyEncoding c
                 = Some (Buffer_toString_hex b5)
              /\ SpendingCondition.signature c
                 = MessageSignature.mk (Some (Buffer_toString_hex b6)))
        \/ (SpendingCondition.is_single_key_mode
              (Some (Buffer_toString_hex b1)) = false
            /\ BufferReader.index r' = (BufferReader.index r + 37)%nat
            /\ SpendingCondition.pubKeyEncoding c
               = SpendingCondition.pubKeyEncoding this
            /\ SpendingCondition.signature c
               = SpendingCondition.signature this)).
Proof.
  unfold SpendingCondition.deserialize.
  destruct (BufferReader.read 1 r) as [[b1 r1]|] eqn:E1; [|discriminate].
  cbn [bind].
  destruct (BufferReader.read 20 r1) as [[b2 r2]|] eqn:E2; [|discriminate].
  cbn [bind].
  destruct (BufferReader.read 8 r2) as [[b3 r3]|] eqn:E3; [|discriminate].
  cbn [bind].
  destruct (read_Ok _ _ _ _ E1) as (Hb1 & Hl1 & Hbuf1 & Hi1 & _ & Hrem1).
  destruct (read_Ok _ _ _ _ E2) as (Hb2 & Hl2 & Hbuf2 & Hi2 & _ & Hrem2).
  destruct (read_Ok _ _ _ _ E3) as (Hb3 & Hl3 & Hbuf3 & Hi3 & _ & Hrem3).
  rewrite (hexStringToBigInt_toString b3 (length_not_nil _ _ Hl3)).
  cbn [bind].
  destruct (BufferReader.read 8 r3) as [[b4 r4]|] eqn:E4; [|discriminate].
  cbn [bind].
  destruct (read_Ok _ _ _ _ E4) as (Hb4 & Hl4 & Hbuf4 & Hi4 & _ & Hrem4).
  rewrite (hexStringToBigInt_toString b4 (length_not_nil _ _ Hl4)).
  cbn [bind].
  assert (H37 : firstn 37 (remaining r) = (b1 ++ b2 ++ b3 ++ b4)%list).
  { change 37%nat with (1 + (20 + (8 + 8)))%nat.
    rewrite !firstn_add. congruence. }
  destruct (SpendingCondition.is_single_key_mode
              (Some (Buffer_toString_hex b1))) eqn:Hmode.
  - destruct (BufferReader.read 1 r4) as [[b5 r5]|] eqn:E5; [|discriminate].
    cbn [bind].
    destruct (read_Ok _ _ _ _ E5) as (Hb5 & Hl5 & Hbuf5 & Hi5 & _ & Hrem5).
    unfold MessageSignature.deserialize_static, MessageSignature.deserialize.
    cbn [MessageSignature.new truthy bind].
    unfold RECOVERABLE_ECDSA_SIG_LENGTH_BYTES.
    destruct (BufferReader.read 65 r5) as [[b6 r6]|] eqn:E6; [|discriminate].
    cbn [bind].
    destruct (read_Ok _ _ _ _ E6) as (Hb6 & Hl6 & Hbuf6 & Hi6 & _ & _).
    intros H. apply Ok_inj in H. injection H as <- <-.
    exists b1, b2, b3, b4. repeat split; try assumption; try congruence.
    left. split; [exact Hmode|]. split; [lia|].
    exists b5, b6. repeat split; try assumption.
    change 103%nat with (1 + (20 + (8 + (8 + (1 + 65)))))%nat.
    rewrite !firstn_add. congruence.
  - assert (Hres : Ok (SpendingCondition.mk (SpendingCondition.class this)
                     (Some (Buffer_toString_hex b1))
                     (Some (Address.fromData 0 (Buffer_toString_hex b2)))
                     (Some (Z.of_N (be_value b3)))
                     (Some (Z.of_N (be_value b4)))
                     (SpendingCondition.pubKeyEncoding this)
                     (SpendingCondition.signature this)
                     (SpendingCondition.signaturesRequired this), r4)
                   = Ok (c, r') ->
                   r4 = r' /\ c = SpendingCondition.mk
                     (SpendingCondition.class this)
                     (Some (Buffer_toString_hex b1))
                     (Some (Address.fromData 0 (Buffer_toString_hex b2)))
                     (Some (Z.of_N (be_value b3)))
                     (Some (Z.of_N (be_value b4)))
                     (SpendingCondition.pubKeyEncoding this)
                     (SpendingCondition.signature this)
                     (SpendingCondition.signaturesRequired this)).
    { intros H. apply Ok_inj in H. injection H as <- <-. now split. }
    intros H.
    assert (H' : r4 = r' /\ c = SpendingCondition.mk
                     (SpendingCondition.class this)
                     (Some (Buffer_toString_hex b1))
                     (Some (Address.fromData 0 (Buffer_toString_hex b2)))
                     (Some (Z.of_N (be_value b3)))
                     (Some (Z.of_N (be_value b4)))
                     (SpendingCondition.pubKeyEncoding this)
                     (SpendingCondition.signature this)
                     (SpendingCondition.signaturesRequired this)).
    { apply Hres.
      destruct (SpendingCondition.is_threshold_mode _); exact H. }
    destruct H' as [<- ->].
    exists b1, b2, b3, b4. repeat split; try assumption; try congruence.
    right. split; [exact Hmode|]. split; [lia|]. split; reflexivity.
Qed.

(** X7.  [serialize] of a spending condition throws exactly when a field it
    writes is undefined: the mode, the signer address, the nonce or the fee
    rate, and for a single-key mode also the key encoding or the signature
    text.  The error is the runtime's [TypeError]; in every other case the
    call returns a buffer, whatever the widths of the fields.  A condition
    built by the constructor without arguments is such a case. *)
Theorem serialize_throws_iff (K : Constants) (X : Collaborators)
    (c : SpendingCondition.t) :
  (SpendingCondition.serialize c = Err TypeError
   <-> (SpendingCondition.addressHashMode c = None
        \/ SpendingCondition.signerAddress c = None
        \/ SpendingCondition.nonce c = None
        \/ SpendingCondition.feeRate c = None
        \/ (SpendingCondition.singleSig c = true
            /\ (SpendingCondition.pubKeyEncoding c = None
                \/ MessageSignature.signature (SpendingCondition.signature c)
                   = None))))
  /\ (SpendingCondition.serialize c = Err TypeError
      \/ exists buf, SpendingCondition.serialize c = Ok buf)
  /\ SpendingCondition.serialize (SpendingCondition.new None None None None)
     = Err TypeError.
Proof.
  split; [|split; [|reflexivity]].
  - unfold SpendingCondition.serialize, SpendingCondition.singleSig,
      MessageSignature.serialize.
    destruct (SpendingCondition.addressHashMode c) as [m|];
      cbn [defined bind]; [|tauto].
    destruct (SpendingCondition.signerAddress c) as [a|];
      cbn [defined bind]; [|tauto].
    destruct (SpendingCondition.nonce c) as [n|];
      cbn [defined bind]; [|tauto].
    destruct (SpendingCondition.feeRate c) as [f|];
      cbn [defined bind]; [|tauto].
    destruct (SpendingCondition.is_single_key_mode (Some m)).
    + destruct (SpendingCondition.pubKeyEncoding c) as [e|];
        cbn [defined bind]; [|tauto].
      destruct (MessageSignature.signature (SpendingCondition.signature c))
        as [s|]; cbn [defined bind]; [|tauto].
      split; [discriminate|].
      intros [H|[H|[H|[H|[_ [H|H]]]]]]; discriminate H.
    + split.
      * destruct (SpendingCondition.is_threshold_mode (Some m)); discriminate.
      * intros [H|[H|[H|[H|[H _]]]]]; discriminate H.
  - destruct (SpendingCondition.serialize c) as [buf|e] eqn:E.
    + right. now exists buf.
    + left. now rewrite (serialize_errors K c e E).
Qed.

Lemma serialize_throws_iff_witness :
  SpendingCondition.serialize (K:=stacks_constants)
    (SpendingCondition.new (K:=stacks_constants) (X:=demo_collaborators)
       (Some "00") None (Some 0%Z) (Some 0%Z))
  = Err TypeError.
Proof.
  apply (proj1 (serialize_throws_iff stacks_constants demo_collaborators _)).
  right. left. reflexivity.
Defined.

Lemma skipn_app_add {A : Type} (a l : list A) (n k : nat) :
  List.length a = n -> skipn (n + k) (a ++ l) = skipn k l.
Proof.
  intros H. rewrite Nat.add_comm, <- skipn_skipn.
  now rewrite (skipn_app_exact a l n H).
Qed.

(** Where the six parts of a 103-byte encoding lie. *)
Lemma six_parts {A : Type} (b1 b2 b3 b4 b5 b6 : list A) :
  List.length b1 = 1%nat -> List.length b2 = 20%nat ->
  List.length b3 = 8%nat -> List.length b4 = 8%nat ->
  List.length b5 = 1%nat -> List.length b6 = 65%nat ->
  let buf := (b1 ++ b2 ++ b3 ++ b4 ++ b5 ++ b6)%list in
  List.length buf = 103%nat
  /\ firstn 1 buf = b1
  /\ firstn 20 (skipn (1 + 0) buf) = b2
  /\ firstn 8 (skipn (1 + (20 + 0)) buf) = b3
  /\ firstn 8 (skipn (1 + (20 + (8 + 0))) buf) = b4
  /\ firstn 1 (skipn (1 + (20 + (8 + (8 + 0)))) buf) = b5
  /\ skipn (1 + (20 + (8 + (8 + (1 + 0))))) buf = b6.
Proof.
  intros H1 H2 H3 H4 H5 H6 buf. unfold buf.
  split.
  { rewrite !length_app, H1, H2, H3, H4, H5, H6. reflexivity. }
  split; [now apply firstn_app_exact|].
  rewrite !(skipn_app_add b1 _ 1 _ H1).
  split; [now apply firstn_app_exact|].
  rewrite !(skipn_app_add b2 _ 20 _ H2).
  split; [now apply firstn_app_exact|].
  rewrite !(skipn_app_add b3 _ 8 _ H3).
  split; [now apply firstn_app_exact|].
  rewrite !(skipn_app_add b4 _ 8 _ H4).
  split; [now apply firstn_app_exact|].
  now rewrite (skipn_app_add b5 _ 1 _ H5).
Qed.

(** X8.  The wire layout of a single-key condition.  With fields of wire
    width, [serialize] returns 103 bytes: the mode at offset 0, the 20
    bytes of the signer address at offset 1, the nonce as eight big-endian
    bytes at offset 21, the fee rate as eight big-endian bytes at offset 29
    (the nonce comes first here, unlike in the pre-sign material), the key
    encoding at offset 37, and the 65 bytes of the signature from
    offset 38. *)
Theorem serialize_single_key_layout (K : Constants)
    (c : SpendingCondition.t) (m : string) (a : Address.t) (n f : Z)
    (e s : string) :
  Constants_ok K = true ->
  SpendingCondition.addressHashMode c = Some m ->
  SpendingCondition.is_single_key_mode (Some m) = true ->
  SpendingCondition.signerAddress c = Some a ->
  hex_of_width 20 (Address.data a) ->
  SpendingCondition.nonce c = Some n -> u64 n ->
  SpendingCondition.feeRate c = Some f -> u64 f ->
  SpendingCondition.pubKeyEncoding c = Some e -> hex_of_width 1 e ->
  SpendingCondition.signature c = MessageSignature.mk (Some s) ->
  hex_of_width 65 s ->
  exists buf,
    SpendingCondition.serialize c = Ok buf
    /\ byteLength buf = 103%nat
    /\ firstn 1 buf = Buffer_from_hex m
    /\ firstn 20 (skipn 1 buf) = Buffer_from_hex (Address.data a)
    /\ firstn 8 (skipn 21 buf) = u64_be n
    /\ firstn 8 (skipn 29 buf) = u64_be f
    /\ firstn 1 (skipn 37 buf) = Buffer_from_hex e
    /\ skipn 38 buf = Buffer_from_hex s.
Proof.
  intros HK Hm Hmode Ha [_ Hal] Hn Hnr Hf Hfr He [_ Hel] Hs [_ Hsl].
  destruct (Constants_ok_single_key K m HK Hmode) as [_ Hml].
  eexists. split.
  { exact (serialize_single_key K c m a n f e s Hm Hmode Ha Hn Hf He Hs). }
  rewrite !bigIntToHexString_u64, !from_hex_toString by assumption.
  exact (six_parts _ _ _ _ _ _ Hml Hal (length_u64_be n) (length_u64_be f)
           Hel Hsl).
Qed.

Lemma serialize_single_key_layout_witness :
  exists buf,
    SpendingCondition.serialize (K:=stacks_constants) demo_condition = Ok buf
    /\ byteLength buf = 103%nat
    /\ firstn 1 buf = [x00]
    /\ firstn 20 (skipn 1 buf) = repeat x11 20
    /\ firstn 8 (skipn 21 buf) = u64_be 0
    /\ firstn 8 (skipn 29 buf) = u64_be 180
    /\ firstn 1 (skipn 37 buf) = [x00]
    /\ skipn 38 buf = repeat x00 65.
Proof.
  apply (serialize_single_key_layout stacks_constants demo_condition
           "00" (Address.mk 0 demo_address) 0 180 "00" (zeros 130));
    try reflexivity; try (split; reflexivity); unfold u64; lia.
Defined.

(** The number of bytes an encoding of [c] takes, by its mode. *)
Lemma decoded_reencodes (K : Constants) (X : Collaborators)
    (r r' : BufferReader.t) (c : SpendingCondition.t) :
  SpendingCondition.deserialize_static r = Ok (c, r') ->
  let used := if SpendingCondition.singleSig c then 103%nat else 37%nat in
  BufferReader.buffer r' = BufferReader.buffer r
  /\ BufferReader.index r' = (BufferReader.index r + used)%nat
  /\ SpendingCondition.serialize c = Ok (firstn used (remaining r)).
Proof.
  unfold SpendingCondition.deserialize_static. intros H.
  destruct (deserialize_Ok K _ c r r' H)
    as (b1 & b2 & b3 & b4 & H1 & H2 & H3 & H4 & H37 & Hbuf & _ & _
        & Hm & Ha & Hn & Hf & Hcase).
  destruct (bigIntToHexString_be_value b3 H3) as [_ Hn8].
  destruct (bigIntToHexString_be_value b4 H4) as [_ Hf8].
  unfold SpendingCondition.singleSig. rewrite Hm.
  destruct Hcase as [(Hmode & Hidx & b5 & b6 & H5 & H6 & H103 & He & Hs)
                    |(Hmode & Hidx & _ & _)];
    rewrite Hmode; cbv zeta; (split; [exact Hbuf|]); (split; [exact Hidx|]).
  - rewrite (serialize_single_key K c _ _ _ _ _ _ Hm Hmode Ha Hn Hf He Hs).
    cbn [Address.data]. rewrite Hn8, Hf8, !from_hex_toString.
    now rewrite H103.
  - rewrite (serialize_other_mode K c _ _ _ _ Hm Hmode Ha Hn Hf).
    unfold header. cbn [Address.data].
    rewrite Hn8, Hf8, !from_hex_toString. now rewrite H37.
Qed.

(** X9.  Decode, then encode.  Whenever [SpendingCondition.deserialize]
    returns, it has consumed 103 bytes if the decoded condition is
    single-signature ([singleSig()], mode P2PKH or P2WPKH) and 37 bytes
    otherwise, and serializing the decoded condition gives back exactly the
    bytes that were consumed. *)
Theorem decode_then_encode (K : Constants) (X : Collaborators)
    (r r' : BufferReader.t) (c : SpendingCondition.t) :
  SpendingCondition.deserialize_static r = Ok (c, r') ->
  let used := if SpendingCondition.singleSig c then 103%nat else 37%nat in
  BufferReader.buffer r' = BufferReader.buffer r
  /\ BufferReader.index r' = (BufferReader.index r + used)%nat
  /\ SpendingCondition.serialize c = Ok (firstn used (remaining r)).
Proof. exact (decoded_reencodes K X r r' c). Qed.

Lemma decode_then_encode_witness :
  SpendingCondition.serialize (K:=stacks_constants)
    (SpendingCondition.mk BaseCondition (Some "ff")
       (Some (Address.fromData 0 (Buffer_toString_hex (repeat x01 20))))
       (Some 72340172838076673%Z) (Some 72340172838076673%Z)
       None MessageSignature.empty None)
  = Ok (firstn 37 unknown_mode_buffer).
Proof.
  apply (proj2 (proj2 (decode_then_encode stacks_constants demo_collaborators
           (BufferReader.new unknown_mode_buffer)
           (BufferReader.mk unknown_mode_buffer 37) _
           ltac:(vm_compute; reflexivity)))).
Defined.

(** X10.  What a decoded condition looks like.  The object that
    [SpendingCondition.deserialize] returns is a plain [SpendingCondition]:
    [signaturesRequired] is undefined and [numSignatures()] is 0 even when
    a signature was read.  Its address has version 0 and 20 bytes, nonce and
    fee rate lie within 64 bits; in a single-key mode it has the full wire
    form, in every other mode the key encoding is undefined and the
    signature is the empty sentinel. *)
Theorem decoded_condition_shape (K : Constants) (X : Collaborators)
    (r r' : BufferReader.t) (c : SpendingCondition.t) :
  SpendingCondition.deserialize_static r = Ok (c, r') ->
  SpendingCondition.class c = BaseCondition
  /\ SpendingCondition.signaturesRequired c = None
  /\ SpendingCondition.numSignatures c = 0%Z
  /\ (exists d, SpendingCondition.signerAddress c = Some (Address.mk 0 d)
                /\ hex_of_width 20 d)
  /\ (exists n, SpendingCondition.nonce c = Some n /\ u64 n)
  /\ (exists f, SpendingCondition.feeRate c = Some f /\ u64 f)
  /\ (SpendingCondition.singleSig c = true -> single_key_wire_form c)
  /\ (SpendingCondition.singleSig c = false ->
      SpendingCondition.pubKeyEncoding c = None
      /\ SpendingCondition.signature c = MessageSignature.empty).
Proof.
  unfold SpendingCondition.deserialize_static. intros H.
  destruct (deserialize_Ok K _ c r r' H)
    as (b1 & b2 & b3 & b4 & H1 & H2 & H3 & H4 & _ & _ & Hclass & Hreq
        & Hm & Ha & Hn & Hf & Hcase).
  cbn [SpendingCondition.new SpendingCondition.class
       SpendingCondition.signaturesRequired] in Hclass, Hreq.
  destruct (bigIntToHexString_be_value b3 H3) as [Hnr _].
  destruct (bigIntToHexString_be_value b4 H4) as [Hfr _].
  assert (Hwidth : forall (b : Buffer) (w : nat),
            List.length b = w -> hex_of_width w (Buffer_toString_hex b)).
  { intros b w Hb. split; [apply canonical_toString|].
    now rewrite from_hex_toString. }
  assert (Haddr : exists d,
            SpendingCondition.signerAddress c = Some (Address.mk 0 d)
            /\ hex_of_width 20 d) by (eexists; split; [exact Ha | auto]).
  assert (Hnonce : exists n, SpendingCondition.nonce c = Some n /\ u64 n)
    by (eexists; split; [exact Hn | exact Hnr]).
  assert (Hfee : exists f, SpendingCondition.feeRate c = Some f /\ u64 f)
    by (eexists; split; [exact Hf | exact Hfr]).
  split; [exact Hclass|]. split; [exact Hreq|].
  split; [unfold SpendingCondition.numSignatures; now rewrite Hclass|].
  split; [exact Haddr|]. split; [exact Hnonce|]. split; [exact Hfee|].
  unfold SpendingCondition.singleSig. rewrite Hm.
  destruct Hcase as [(Hmode & _ & b5 & b6 & H5 & H6 & _ & He & Hs)
                    |(Hmode & _ & He & Hs)]; rewrite Hmode.
  - split; [intros _ | discriminate].
    unfold single_key_wire_form. rewrite Hm.
    split; [exact Hmode|]. split; [exact Haddr|].
    split; [exact Hnonce|]. split; [exact Hfee|].
    split; eexists; (split; [eassumption | auto]).
  - split; [discriminate | intros _].
    split; [exact He | exact Hs].
Qed.

Lemma decoded_condition_shape_witness :
  SpendingCondition.numSignatures
    (SpendingCondition.mk BaseCondition (Some "ff")
       (Some (Address.fromData 0 (Buffer_toString_hex (repeat x01 20))))
       (Some 72340172838076673%Z) (Some 72340172838076673%Z)
       None MessageSignature.empty None)
  = 0%Z.
Proof.
  apply (proj1 (proj2 (proj2 (decoded_condition_shape
           stacks_constants demo_collaborators
           (BufferReader.new unknown_mode_buffer)
           (BufferReader.mk unknown_mode_buffer 37) _
           ltac:(vm_compute; reflexivity))))).
Defined.

(** ** Authorizations on the wire *)

(** X11.  Decode, then encode, for authorizations.  Whenever
    [Authorization.deserialize] returns, serializing the decoded
    authorization gives back exactly the bytes that were consumed.  For an
    authType byte other than Standard (Sponsored included) that is the one
    byte of the tag: the spending condition of the object is left as it was
    and nothing after the tag is read. *)
Theorem Authorization_decode_then_encode (K : Constants) (X : Collaborators)
    (this a : Authorization.t) (r r' : BufferReader.t) :
  Authorization.deserialize this r = Ok (a, r') ->
  BufferReader.buffer r' = BufferReader.buffer r
  /\ (BufferReader.index r < BufferReader.index r')%nat
  /\ Authorization.serialize a
     = Ok (firstn (BufferReader.index r' - BufferReader.index r)
             (remaining r))
  /\ (Authorization.authType a <> Some AuthType_Standard ->
      BufferReader.index r' = (BufferReader.index r + 1)%nat
      /\ Authorization.spendingCondition a
         = Authorization.spendingCondition this).
Proof.
  unfold Authorization.deserialize.
  destruct (BufferReader.read 1 r) as [[b1 r1]|] eqn:E1; [|discriminate].
  cbn [bind].
  destruct (read_Ok _ _ _ _ E1) as (Hb1 & Hl1 & Hbuf1 & Hi1 & _ & Hrem1).
  destruct (String.eqb_spec (Buffer_toString_hex b1) AuthType_Standard)
    as [Hstd|Hstd].
  - destruct (SpendingCondition.deserialize_static r1) as [[c r2]|] eqn:E2;
      [|discriminate].
    cbn [bind]. intros H. apply Ok_inj in H. injection H as <- <-.
    destruct (decoded_reencodes K X r1 r2 c E2) as (Hbuf2 & Hi2 & Hser).
    cbv zeta in Hi2, Hser.
    split; [congruence|]. split; [lia|]. split.
    + unfold Authorization.serialize.
      cbn [Authorization.authType Authorization.spendingCondition
           defined bind].
      rewrite Hstd, String.eqb_refl, Hser. cbn [bind].
      unfold BufferArray.concatBuffer, BufferArray.push,
        BufferArray.appendHexString, BufferArray.new.
      cbn [app concat]. rewrite app_nil_r.
      rewrite <- Hstd, from_hex_toString.
      replace (BufferReader.index r2 - BufferReader.index r)%nat
        with (1 + (BufferReader.index r2 - BufferReader.index r1))%nat by lia.
      rewrite firstn_add, <- Hb1, <- Hrem1.
      do 2 f_equal.
      destruct (SpendingCondition.singleSig c); f_equal; lia.
    + cbn [Authorization.authType]. rewrite Hstd. congruence.
  - assert (Hres : Ok (Authorization.mk (Some (Buffer_toString_hex b1))
                         (Authorization.spendingCondition this), r1)
                   = Ok (a, r') ->
                   a = Authorization.mk (Some (Buffer_toString_hex b1))
                         (Authorization.spendingCondition this)
                   /\ r1 = r').
    { intros H. apply Ok_inj in H. injection H as <- <-. now split. }
    intros H.
    assert (H' : a = Authorization.mk (Some (Buffer_toString_hex b1))
                       (Authorization.spendingCondition this)
                 /\ r1 = r').
    { apply Hres. destruct (String.eqb _ AuthType_Sponsored); exact H. }
    destruct H' as [-> <-].
    split; [exact Hbuf1|]. split; [lia|]. split.
    + unfold Authorization.serialize.
      cbn [Authorization.authType defined bind].
      apply String.eqb_neq in Hstd. rewrite Hstd.
      replace (BufferReader.index r1 - BufferReader.index r)%nat
        with 1%nat by lia.
      rewrite <- Hb1.
      destruct (String.eqb _ AuthType_Sponsored);
        cbn; now rewrite from_hex_toString, app_nil_r.
    + intros _. split; [exact Hi1 | reflexivity].
Qed.

Lemma Authorization_decode_then_encode_witness :
  Authorization.serialize (K:=stacks_constants)
    (Authorization.mk (Some "05") None)
  = Ok [x05].
Proof.
  apply (proj1 (proj2 (proj2 (Authorization_decode_then_encode
           stacks_constants demo_collaborators
           (Authorization.mk None None) (Authorization.mk (Some "05") None)
           (BufferReader.new [x05; x00; x01])
           (BufferReader.mk [x05; x00; x01] 1) eq_refl)))).
Defined.

(** X12.  Encode, then decode, for a Standard authorization.  With a
    spending condition of a single-key mode and wire width, [serialize]
    returns 104 bytes, the authType byte followed by the condition, and
    [deserialize] on them gives authType Standard and a condition with the
    same six fields, having read all 104 bytes. *)
Theorem Authorization_standard_roundtrip (K : Constants) (X : Collaborators)
    (this : Authorization.t) (c : SpendingCondition.t) :
  Constants_ok K = true ->
  single_key_wire_form c ->
  exists buf,
    Authorization.serialize (Authorization.StandardAuthorization c) = Ok buf
    /\ byteLength buf = 104%nat
    /\ exists c' r',
         Authorization.deserialize this (BufferReader.new buf)
         = Ok (Authorization.mk (Some AuthType_Standard) (Some c'), r')
         /\ same_fields c c'
         /\ BufferReader.index r' = 104%nat.
Proof.
  intros HK (Hmode & (d & Hd & Hdc & Hdl) & (n & Hn & Hnr) & (f & Hf & Hfr)
             & (e & He & Hec & Hel) & (s & Hs & Hsc & Hsl)).
  destruct (SpendingCondition.addressHashMode c) as [m|] eqn:Hm;
    [|discriminate Hmode].
  destruct (Constants_ok_single_key K m HK Hmode) as [Hmc Hml].
  assert (Hstd : hex_of_width 1 AuthType_Standard).
  { unfold Constants_ok in HK. cbn [forallb] in HK. split_bools.
    now apply one_byte_hex_spec. }
  destruct Hstd as [Htc Htl].
  pose proof (serialize_single_key K c m _ n f e s Hm Hmode Hd Hn Hf He Hs)
    as Hser.
  cbn [Address.data] in Hser.
  rewrite !bigIntToHexString_u64, !from_hex_toString in Hser by assumption.
  pose proof (six_parts _ _ _ _ _ _ Hml Hdl (length_u64_be n)
                (length_u64_be f) Hel Hsl) as (Hlen & _).
  eexists. split.
  { unfold Authorization.serialize, Authorization.StandardAuthorization,
      Authorization.new.
    cbn [Authorization.authType Authorization.spendingCondition defined bind].
    rewrite String.eqb_refl, Hser. cbn [bind].
    unfold BufferArray.concatBuffer, BufferArray.push,
      BufferArray.appendHexString, BufferArray.new.
    cbn [app concat]. rewrite app_nil_r. reflexivity. }
  split.
  { unfold byteLength in *. rewrite length_app, Hlen, Htl. reflexivity. }
  unfold Authorization.deserialize.
  destruct (read_next (BufferReader.new
              (Buffer_from_hex AuthType_Standard
               ++ Buffer_from_hex m ++ Buffer_from_hex d ++ u64_be n
               ++ u64_be f ++ Buffer_from_hex e ++ Buffer_from_hex s)%list)
              (Buffer_from_hex AuthType_Standard) _ 1 Htl
              ltac:(cbn; lia) eq_refl)
    as (r1 & E1 & Hb1 & Hi1 & Hle1 & Hrem1).
  rewrite E1. cbn [bind]. rewrite Htc, String.eqb_refl.
  unfold SpendingCondition.deserialize_static.
  rewrite <- (app_nil_r (Buffer_from_hex s)) in Hrem1.
  rewrite (deserialize_single_key K _ r1 _ _ _ _ _ _ [] Hle1 Hrem1);
    try assumption; try apply length_u64_be;
    [|rewrite Hmc; exact Hmode].
  cbn [bind]. do 2 eexists. split; [reflexivity|]. split.
  - unfold same_fields, Address.fromData.
    cbn [SpendingCondition.addressHashMode SpendingCondition.signerAddress
         SpendingCondition.nonce SpendingCondition.feeRate
         SpendingCondition.pubKeyEncoding SpendingCondition.signature].
    rewrite Hm, Hd, Hn, Hf, He, Hs, Hmc, Hdc, Hec, Hsc.
    rewrite !be_value_u64 by assumption.
    repeat split.
  - cbn [BufferReader.index]. rewrite Hi1. reflexivity.
Qed.

Lemma demo_condition_wire_form :
  single_key_wire_form (K:=stacks_constants) demo_condition.
Proof.
  unfold single_key_wire_form, hex_of_width, canonical_hex, u64.
  split; [reflexivity|].
  split; [exists demo_address; repeat split|].
  split; [exists 0%Z; split; [reflexivity | lia]|].
  split; [exists 180%Z; split; [reflexivity | lia]|].
  split; [exists "00"; repeat split|].
  exists (zeros 130). repeat split.
Qed.

Lemma Authorization_standard_roundtrip_witness :
  exists buf,
    Authorization.serialize (K:=stacks_constants) demo_tx.(StacksTransaction.auth)
    = Ok buf
    /\ byteLength buf = 104%nat.
Proof.
  destruct (Authorization_standard_roundtrip stacks_constants
              demo_collaborators (Authorization.mk None None) demo_condition
              eq_refl
              demo_condition_wire_form)
    as (buf & Hser & Hlen & _).
  exists buf. split; [exact Hser | exact Hlen].
Defined.

(** ** More on the signing session *)

(** X13.  What one [signOrigin] call does to the signer.  The three flags
    never change.  When the call succeeds, the stored sighash is the hash
    that the transaction's chain step returned for the previous sighash and
    this key.  When the call throws, the stored sighash is unchanged, and
    either the signer is untouched altogether (a guard threw) or the
    exception is the one raised by the chain step. *)
Theorem signOrigin_effect (X : Collaborators)
    (signNextOrigin : string -> StacksPrivateKey -> StacksTransaction.t ->
                      result string * StacksTransaction.t)
    (k : StacksPrivateKey) (s : TransactionSigner.t) :
  let res := fst (TransactionSigner.signOrigin signNextOrigin k s) in
  let s' := snd (TransactionSigner.signOrigin signNextOrigin k s) in
  TransactionSigner.originDone s' = TransactionSigner.originDone s
  /\ TransactionSigner.checkOversign s' = TransactionSigner.checkOversign s
  /\ TransactionSigner.checkOverlap s' = TransactionSigner.checkOverlap s
  /\ (res = Ok tt ->
      signNextOrigin (TransactionSigner.sigHash s) k
        (TransactionSigner.transaction s)
      = (Ok (TransactionSigner.sigHash s'), TransactionSigner.transaction s'))
  /\ (forall e, res = Err e ->
      TransactionSigner.sigHash s' = TransactionSigner.sigHash s
      /\ (s' = s
          \/ signNextOrigin (TransactionSigner.sigHash s) k
               (TransactionSigner.transaction s)
             = (Err e, TransactionSigner.transaction s'))).
Proof.
  cbv zeta.
  destruct (signOrigin_flags signNextOrigin k s) as (Hd & Ho & Hl).
  split; [exact Hd|]. split; [exact Ho|]. split; [exact Hl|].
  unfold TransactionSigner.signOrigin, TransactionSigner.signOrigin_unguarded.
  destruct (TransactionSigner.overlap_guard s).
  { cbn [fst snd]. split; [discriminate|]. intros e _. now split; [|left]. }
  destruct (TransactionSigner.oversign_guard s) as [[|]|e0].
  - cbn [fst snd]. split; [discriminate|]. intros e _. now split; [|left].
  - destruct (signNextOrigin _ _ _) as [[h|e0] tx]; cbn [fst snd].
    + split; [reflexivity | discriminate].
    + split; [discriminate|]. intros e [= <-]. split; [reflexivity|].
      right. reflexivity.
  - cbn [fst snd]. split; [discriminate|]. intros e _. now split; [|left].
Qed.

Lemma signOrigin_effect_witness :
  demo_signNextOrigin H0 demo_key demo_tx
  = (Ok (TransactionSigner.sigHash demo_signer_signed),
     TransactionSigner.transaction demo_signer_signed).
Proof.
  apply (proj1 (proj2 (proj2 (proj2
           (signOrigin_effect demo_collaborators demo_signNextOrigin
              demo_key demo_signer))))).
  reflexivity.
Defined.

(** X14.  When the oversign guard cannot fire.  With the overlap guard off,
    [signOrigin] always goes on to the chain step if [checkOversign] is
    false (the origin condition is then not even looked at), and also if
    the origin condition is not a [SingleSigSpendingCondition] and its
    [signaturesRequired] is undefined or positive: such a condition, for
    instance one decoded from the wire or built by the base constructor,
    reports 0 signatures however its signature slot is filled, so it can be
    signed again and again. *)
Theorem signOrigin_without_oversign_guard (X : Collaborators)
    (signNextOrigin : string -> StacksPrivateKey -> StacksTransaction.t ->
                      result string * StacksTransaction.t)
    (k : StacksPrivateKey) (s : TransactionSigner.t) :
  TransactionSigner.overlap_guard s = false ->
  (TransactionSigner.checkOversign s = false ->
   TransactionSigner.signOrigin signNextOrigin k s
   = chain_step_outcome signNextOrigin k s)
  /\ (forall c,
        origin s = Some c ->
        SpendingCondition.class c <> SingleSig ->
        (forall required,
           SpendingCondition.signaturesRequired c = Some required ->
           (0 < required)%Z) ->
        TransactionSigner.signOrigin signNextOrigin k s
        = chain_step_outcome signNextOrigin k s).
Proof.
  intros Hoverlap.
  unfold TransactionSigner.signOrigin, TransactionSigner.signOrigin_unguarded,
    TransactionSigner.oversign_guard, chain_step_outcome.
  rewrite Hoverlap. split.
  - intros ->. destruct (signNextOrigin _ _ _) as [[h|e] tx]; reflexivity.
  - intros c Hc Hclass Hreq. unfold origin in Hc. rewrite Hc.
    destruct (TransactionSigner.checkOversign s); cbn [defined bind].
    + assert (Hge : js_ge (SpendingCondition.numSignatures c)
                      (SpendingCondition.signaturesRequired c) = false).
      { unfold SpendingCondition.numSignatures.
        destruct (SpendingCondition.class c); [|contradiction|];
          (destruct (SpendingCondition.signaturesRequired c) as [req|];
           [|reflexivity]; cbn [js_ge]; specialize (Hreq req eq_refl);
           destruct (Z.leb_spec req 0); [lia | reflexivity]). }
      rewrite Hge.
      destruct (signNextOrigin _ _ _) as [[h|e] tx]; reflexivity.
    + destruct (signNextOrigin _ _ _) as [[h|e] tx]; reflexivity.
Qed.

Lemma signOrigin_without_oversign_guard_witness :
  TransactionSigner.signOrigin demo_signNextOrigin demo_key
    demo_signer_resigning
  = chain_step_outcome demo_signNextOrigin demo_key demo_signer_resigning.
Proof.
  apply (proj2 (signOrigin_without_oversign_guard demo_collaborators
                  demo_signNextOrigin demo_key demo_signer_resigning eq_refl)
           (SpendingCondition.with_signature
              (MessageSignature.mk (Some ("01" ++ H0 ++ H0)))
              demo_threshold_condition)).
  - reflexivity.
  - discriminate.
  - discriminate.
Defined.

(** X15.  An origin that is missing.  With the overlap guard off and
    [checkOversign] set, [signOrigin] on a transaction whose authorization
    has no spending condition fails with the runtime's [TypeError] while
    evaluating the oversign guard: the chain step is not called and the
    signer is unchanged.  The oversign error itself is raised only when the
    origin condition is defined, has a defined [signaturesRequired], and
    counts at least that many signatures. *)
Theorem signOrigin_guard_outcomes (X : Collaborators)
    (signNextOrigin : string -> StacksPrivateKey -> StacksTransaction.t ->
                      result string * StacksTransaction.t)
    (k : StacksPrivateKey) (s : TransactionSigner.t) :
  TransactionSigner.overlap_guard s = false ->
  TransactionSigner.checkOversign s = true ->
  (origin s = None ->
   TransactionSigner.signOrigin signNextOrigin k s = (Err TypeError, s))
  /\ (TransactionSigner.oversign_guard s = Ok true
      <-> exists c required,
            origin s = Some c
            /\ SpendingCondition.signaturesRequired c = Some required
            /\ (required <= SpendingCondition.numSignatures c)%Z)
  /\ (TransactionSigner.oversign_guard s = Ok false ->
      TransactionSigner.signOrigin signNextOrigin k s
      = chain_step_outcome signNextOrigin k s).
Proof.
  intros Hoverlap Hcheck.
  unfold TransactionSigner.signOrigin, TransactionSigner.signOrigin_unguarded,
    TransactionSigner.oversign_guard, chain_step_outcome, origin.
  rewrite Hoverlap, Hcheck.
  destruct (Authorization.spendingCondition _) as [c|]; cbn [defined bind].
  - split; [discriminate|]. split.
    + split.
      * intros H. apply Ok_inj in H.
        destruct (SpendingCondition.signaturesRequired c) as [req|] eqn:Hreq;
          [|discriminate H].
        exists c, req. cbn [js_ge] in H.
        split; [reflexivity|]. split; [exact Hreq|]. now apply Z.leb_le.
      * intros (c0 & req & [= <-] & Hreq & Hle). rewrite Hreq. cbn [js_ge].
        f_equal. now apply Z.leb_le.
    + intros H. apply Ok_inj in H. rewrite H.
      destruct (signNextOrigin _ _ _) as [[h|e] tx]; reflexivity.
  - split; [reflexivity|]. split; [|discriminate].
    split; [discriminate|]. intros (c0 & req & H & _). discriminate H.
Qed.

Lemma signOrigin_guard_outcomes_witness :
  TransactionSigner.signOrigin demo_signNextOrigin demo_key
    demo_signer_no_origin
  = (Err TypeError, demo_signer_no_origin).
Proof.
  apply (proj1 (signOrigin_guard_outcomes demo_collaborators
                  demo_signNextOrigin demo_key demo_signer_no_origin
                  eq_refl eq_refl)).
  reflexivity.
Defined.

(** ** Constructing, then encoding *)

Lemma constructed_serializes (K : Constants) (X : Collaborators)
    (cls : SpendingConditionClass) (req : option Z)
    (mode pubKey : option string) (nonce feeRate : option Z) :
  let c := SpendingCondition.new mode pubKey nonce feeRate in
  let c' :=
    SpendingCondition.mk cls (SpendingCondition.addressHashMode c)
      (SpendingCondition.signerAddress c) (SpendingCondition.nonce c)
      (SpendingCondition.feeRate c) (SpendingCondition.pubKeyEncoding c)
      (SpendingCondition.signature c) req in
  (exists buf, SpendingCondition.serialize c' = Ok buf)
  <-> (truthy mode = true /\ truthy pubKey = true
       /\ nonce <> None /\ feeRate <> None).
Proof.
  cbv zeta. unfold SpendingCondition.serialize, SpendingCondition.new,
    MessageSignature.serialize.
  cbn [SpendingCondition.addressHashMode SpendingCondition.signerAddress
       SpendingCondition.nonce SpendingCondition.feeRate
       SpendingCondition.pubKeyEncoding SpendingCondition.signature
       MessageSignature.empty MessageSignature.signature].
  destruct mode as [[|ch m]|]; cbn [truthy andb defined bind];
    try (split; [intros [buf H]; discriminate H
                | intros (H & _); discriminate H]).
  - destruct pubKey as [pk|]; cbn [defined bind];
      (split; [intros [buf H]; discriminate H
              | intros (H & _); discriminate H]).
  - destruct pubKey as [[|ch' pk]|]; cbn [truthy andb defined bind];
      try (split; [intros [buf H]; discriminate H
                  | intros (_ & H & _); discriminate H]).
    destruct nonce as [n|]; cbn [defined bind];
      [|split; [intros [buf H]; discriminate H
               | intros (_ & _ & H & _); contradiction]].
    destruct feeRate as [f|]; cbn [defined bind];
      [|split; [intros [buf H]; discriminate H
               | intros (_ & _ & _ & H); contradiction]].
    split; [intros _; repeat split; discriminate|]. intros _.
    destruct (SpendingCondition.is_single_key_mode _); cbn [defined bind].
    + eexists. reflexivity.
    + destruct (SpendingCondition.is_threshold_mode _); eexists; reflexivity.
Qed.

(** X16.  Which freshly constructed conditions can be encoded.  For a
    condition just built by the [SpendingCondition] or the
    [SingleSigSpendingCondition] constructor, [serialize] returns a buffer
    exactly when the mode and the public key given to the constructor are
    non-empty strings and a nonce and a fee rate were given; otherwise it
    throws.  No width is checked, so a nonce or fee rate beyond 64 bits is
    encoded as well. *)
Theorem constructed_condition_serializes_iff (K : Constants)
    (X : Collaborators) (mode pubKey : option string)
    (nonce feeRate : option Z) :
  ((exists buf,
      SpendingCondition.serialize
        (SpendingCondition.new mode pubKey nonce feeRate) = Ok buf)
   <-> (truthy mode = true /\ truthy pubKey = true
        /\ nonce <> None /\ feeRate <> None))
  /\ ((exists buf,
         SpendingCondition.serialize
           (SpendingCondition.SingleSig_new mode pubKey nonce feeRate)
         = Ok buf)
      <-> (truthy mode = true /\ truthy pubKey = true
           /\ nonce <> None /\ feeRate <> None)).
Proof.
  split.
  - exact (constructed_serializes K X BaseCondition None
             mode pubKey nonce feeRate).
  - exact (constructed_serializes K X SingleSig (Some 1%Z)
             mode pubKey nonce feeRate).
Qed.

Lemma constructed_condition_serializes_iff_witness :
  exists buf,
    SpendingCondition.serialize (K:=stacks_constants)
      (SpendingCondition.new (K:=stacks_constants) (X:=demo_collaborators)
         (Some "00") (Some ("02" ++ demo_key)) (Some (2 ^ 64)%Z) (Some 0%Z))
    = Ok buf.
Proof.
  apply (proj1 (constructed_condition_serializes_iff stacks_constants
                  demo_collaborators (Some "00") (Some ("02" ++ demo_key))
                  (Some (2 ^ 64)%Z) (Some 0%Z))).
  repeat split; discriminate.
Defined.

(** ** The pre-sign material is unambiguous *)

Lemma app_inv_length {A : Type} (a a' l l' : list A) :
  List.length a = List.length a' ->
  (a ++ l = a' ++ l')%list -> a = a' /\ l = l'.
Proof.
  revert a'. induction a as [|x a IH]; intros [|x' a'] Hlen H;
    try discriminate Hlen.
  - now split.
  - cbn in H. injection H as -> H. injection Hlen as Hlen.
    destruct (IH a' Hlen H) as [-> ->]. now split.
Qed.

Lemma u64_be_inj (i j : Z) : u64 i -> u64 j -> u64_be i = u64_be j -> i = j.
Proof.
  intros Hi Hj H.
  rewrite <- (be_value_u64 i Hi), <- (be_value_u64 j Hj). now rewrite H.
Qed.

(** X17.  For 32-byte sighashes and fee rates and nonces within 64 bits, the
    text that [makeSigHashPreSign] hashes determines its four inputs: two
    calls hash the same material only if the current sighash, the authType
    byte, the fee rate and the nonce all agree. *)
Theorem preSignMaterial_injective (curHash curHash' : Buffer)
    (authType authType' : byte) (feeRate feeRate' nonce nonce' : Z) :
  List.length curHash = 32%nat -> List.length curHash' = 32%nat ->
  u64 feeRate -> u64 feeRate' -> u64 nonce -> u64 nonce' ->
  SpendingCondition.preSignMaterial (Buffer_toString_hex curHash)
    (Buffer_toString_hex [authType]) feeRate nonce
  = SpendingCondition.preSignMaterial (Buffer_toString_hex curHash')
      (Buffer_toString_hex [authType']) feeRate' nonce' ->
  curHash = curHash' /\ authType = authType'
  /\ feeRate = feeRate' /\ nonce = nonce'.
Proof.
  intros Hl Hl' Hf Hf' Hn Hn' H.
  rewrite !preSignMaterial_bytes in H by assumption.
  apply (f_equal Buffer_from_hex) in H. rewrite !from_hex_toString in H.
  apply app_inv_length in H as [Hc H1]; [|congruence].
  apply (app_inv_length [authType] [authType']) in H1 as [Ha H2];
    [|reflexivity].
  apply app_inv_length in H2 as [Hfe Hno];
    [|rewrite !length_u64_be; reflexivity].
  split; [exact Hc|]. split; [congruence|].
  split; now apply u64_be_inj.
Qed.

Lemma preSignMaterial_injective_witness :
  repeat x2a 32 = repeat x2a 32 /\ x04 = x04 /\ 180%Z = 180%Z /\ 0%Z = 0%Z.
Proof.
  apply (preSignMaterial_injective (repeat x2a 32) (repeat x2a 32) x04 x04
           180 180 0 0); try reflexivity; unfold u64; lia.
Defined.
